(** * Beancount language server: semantic tokens and on-save diagnostics

    A shallow embedding of
    - [SemanticTokensProvider] (providers/semanticTokensProvider.ts, in its
      two revisions), and
    - [BeancountServer.onDidSaveTextDocument] (server/src/server.ts),
    together with the properties that the specification states about them.

    Numbers are [Z], strings are [string] (one character per UTF-16 code
    unit), JavaScript [Map]s and [Set]s are [gmap]s and [gsets], and the
    mutable objects that the handlers share (the token builders) live in an
    explicit store that every handler threads through. *)

From Stdlib Require Import ZArith String Ascii List Lia Sorted.
From stdpp Require Import base option list gmap strings pretty.

Local Open Scope string_scope.
Local Open Scope Z_scope.
Local Open Scope list_scope.

(** ** Protocol data (vscode-languageserver types) *)

Record SemanticTokensLegend := {
  tokenTypes : list string;
  tokenModifiers : list string
}.

Record SemanticTokensClientCapabilities := {
  cap_tokenTypes : list string;
  cap_tokenModifiers : list string
}.

(** [resultId] is optional in the protocol; the handlers' early return
    [{ data: [] }] leaves it undefined. *)
Record SemanticTokens := {
  resultId : option string;
  data : list Z
}.

Record SemanticTokensEdit := {
  edit_start : Z;
  edit_deleteCount : Z;
  edit_data : option (list Z)
}.

Record SemanticTokensDelta := {
  delta_resultId : option string;
  edits : list SemanticTokensEdit
}.

(** What a [textDocument/semanticTokens/full/delta] request may be answered
    with. *)
Inductive DeltaResult :=
  | FullTokens (t : SemanticTokens)
  | DeltaTokens (d : SemanticTokensDelta).

(** ** The enumerations of the provider

    A TypeScript numeric enum is an object with a forward mapping (member
    to number) and a reverse mapping (number to member name).  The member
    the source calls [_] is the loop bound of [computeLegend]; it is
    [sentinel] here. *)

Module TokenTypes.
Definition comment : Z := 0.
Definition keyword : Z := 1.
Definition number : Z := 3.
Definition type : Z := 4.
Definition property : Z := 5.
Definition parameter : Z := 6.
Definition label : Z := 7.
Definition constant : Z := 8.
Definition sentinel : Z := 16.
Definition name (i : Z) : option String.string :=
  match i with
  | 0 => Some "comment" | 1 => Some "keyword" | 2 => Some "string"
  | 3 => Some "number" | 4 => Some "type" | 5 => Some "property"
  | 6 => Some "parameter" | 7 => Some "label" | 8 => Some "constant"
  | 16 => Some "_"
  | _ => None
  end.
Definition string : Z := 2.
End TokenTypes.

Module TokenModifiers.
Definition abstract : Z := 0.
Definition deprecated : Z := 1.
Definition sentinel : Z := 2.
Definition name (i : Z) : option string :=
  match i with
  | 0 => Some "abstract" | 1 => Some "deprecated" | 2 => Some "_"
  | _ => None
  end.
End TokenModifiers.

(** The enumeration of the earlier revision of the provider
    (src/providers/semanticTokensProvider.ts): value 4 is unused. *)
Module TokenTypesRev0.
Definition sentinel : Z := 16.
Definition name (i : Z) : option string :=
  match i with
  | 0 => Some "comment" | 1 => Some "keyword" | 2 => Some "string"
  | 3 => Some "number" | 5 => Some "type" | 6 => Some "class"
  | 7 => Some "interface" | 8 => Some "enum" | 9 => Some "typeParameter"
  | 10 => Some "function" | 11 => Some "member" | 12 => Some "property"
  | 13 => Some "variable" | 14 => Some "parameter"
  | 16 => Some "_"
  | _ => None
  end.
End TokenTypesRev0.

(** ** computeLegend *)

(** One iteration of
    [const str = E[i]; if (client.has(str)) { out.push(str) }].
    [E[i]] is [undefined] where the enum has no member of value [i], and a
    set of strings does not contain [undefined]. *)
Definition legend_step (name : Z -> option string) (client : gset string)
    (out : list string) (i : Z) : list string :=
  match name i with
  | Some str => if decide (str ∈ client) then out ++ [str] else out
  | None => out
  end.

(** [for (let i = 0; i < bound; i++) ...], starting from the empty array. *)
Definition legend_loop (name : Z -> option string) (bound : Z)
    (client : gset string) : list string :=
  fold_left (legend_step name client) (seqZ 0 bound) [].

Definition computeLegend (capability : SemanticTokensClientCapabilities)
    : SemanticTokensLegend :=
  let clientTokenTypes : gset string := list_to_set (cap_tokenTypes capability) in
  let clientTokenModifiers : gset string :=
    list_to_set (cap_tokenModifiers capability) in
  {| tokenTypes :=
       legend_loop TokenTypes.name TokenTypes.sentinel clientTokenTypes;
     tokenModifiers :=
       legend_loop TokenModifiers.name TokenModifiers.sentinel
         clientTokenModifiers |}.

(** The server's canonical enumeration: the member names in increasing
    order of their values, below the bound. *)
Definition enum_names (name : Z -> option string) (bound : Z) : list string :=
  omap name (seqZ 0 bound).

Definition server_token_types : list string :=
  enum_names TokenTypes.name TokenTypes.sentinel.

Definition server_token_modifiers : list string :=
  enum_names TokenModifiers.name TokenModifiers.sentinel.

(** ** SemanticTokensBuilder

    The builder class of vscode-languageserver that the provider drives
    (library code, embedded here as the state the provider mutates).  The
    source keeps [_dataLen] next to [_data] and writes
    [_data[_dataLen++] = x]; the two are reset together, so [_dataLen] is
    the length of [_data] and a write is an append.  [Date.now()] is the
    argument [now] of [initialize]. *)

Record SemanticTokensBuilder := {
  _id : Z;
  _prevLine : Z;
  _prevChar : Z;
  _data : list Z;
  _prevData : option (list Z)
}.

Module Builder.

Definition initialize (now : Z) (prevData : option (list Z))
    : SemanticTokensBuilder :=
  {| _id := now; _prevLine := 0; _prevChar := 0; _data := [];
     _prevData := prevData |}.

(** [new SemanticTokensBuilder()] *)
Definition new (now : Z) : SemanticTokensBuilder := initialize now None.

Definition push (b : SemanticTokensBuilder)
    (line char length tokenType tokenModifiers : Z) : SemanticTokensBuilder :=
  let nonempty := negb (Nat.eqb (List.length (_data b)) 0) in
  let pushLine := if nonempty then line - _prevLine b else line in
  let pushChar :=
    if nonempty && Z.eqb pushLine 0 then char - _prevChar b else char in
  {| _id := _id b; _prevLine := line; _prevChar := char;
     _data := _data b ++ [pushLine; pushChar; length; tokenType; tokenModifiers];
     _prevData := _prevData b |}.

(** [get id(): string { return this._id.toString() }] *)
Definition id (b : SemanticTokensBuilder) : string := pretty (_id b).

Definition previousResult (now : Z) (b : SemanticTokensBuilder)
    (prev : string) : SemanticTokensBuilder :=
  initialize now
    (if String.eqb (id b) prev then Some (_data b) else _prevData b).

Definition build (b : SemanticTokensBuilder)
    : SemanticTokens * SemanticTokensBuilder :=
  ({| resultId := Some (id b); data := _data b |},
   {| _id := _id b; _prevLine := _prevLine b; _prevChar := _prevChar b;
      _data := _data b; _prevData := None |}).

End Builder.

(** ** Syntax trees (web-tree-sitter)

    Only what [buildTokens] reads: the node's [type], [startPosition],
    [text] and its children in document order. *)

Record Point := { row : Z; column : Z }.

#[local] Set Warnings "-register-all".
Inductive SyntaxNode :=
  | Node (type : string) (startPosition : Point) (text : string)
         (children : list SyntaxNode).

Definition type (n : SyntaxNode) : string :=
  let 'Node t _ _ _ := n in t.
Definition startPosition (n : SyntaxNode) : Point :=
  let 'Node _ p _ _ := n in p.
Definition text (n : SyntaxNode) : string :=
  let 'Node _ _ s _ := n in s.
Definition children (n : SyntaxNode) : list SyntaxNode :=
  let 'Node _ _ _ cs := n in cs.

Record Tree := { rootNode : SyntaxNode }.

(** [tree.walk()]: a cursor, positioned on the root. *)
Definition walk (t : Tree) : SyntaxNode := rootNode t.

(** ** buildTokens *)

(** One call [builder.push(line, char, length, tokenType, tokenModifiers)]. *)
Record PushCall := {
  p_line : Z;
  p_char : Z;
  p_length : Z;
  p_tokenType : Z;
  p_tokenModifiers : Z
}.

Definition push_node (node : SyntaxNode) (tokenType tokenModifiers : Z)
    : PushCall :=
  {| p_line := row (startPosition node);
     p_char := column (startPosition node);
     p_length := Z.of_nat (String.length (text node));
     p_tokenType := tokenType;
     p_tokenModifiers := tokenModifiers |}.

(** The chain of [if (node.type == ...) ... else if ...] at the head of
    [traverse]: the calls of [builder.push] it makes for the current node. *)
Definition visit (node : SyntaxNode) : list PushCall :=
  if String.eqb (type node) "date" then
    [push_node node TokenTypes.number TokenModifiers.abstract]
  else if String.eqb (type node) "txn" then
    [push_node node TokenTypes.property TokenModifiers.abstract]
  else if String.eqb (type node) "account" then
    [push_node node TokenTypes.type TokenModifiers.abstract]
  else if String.eqb (type node) "amount" then
    [push_node node TokenTypes.number TokenModifiers.abstract]
  else if String.eqb (type node) "incomplete_amount" then
    [push_node node TokenTypes.number TokenModifiers.abstract]
  else if String.eqb (type node) "currency" then
    [push_node node TokenTypes.property TokenModifiers.abstract]
  else if String.eqb (type node) "key" then
    [push_node node TokenTypes.label TokenModifiers.abstract]
  else if String.eqb (type node) "string" then
    [push_node node TokenTypes.string TokenModifiers.abstract]
  else if String.eqb (type node) "tag" then
    [push_node node TokenTypes.constant TokenModifiers.abstract]
  else if String.eqb (type node) "comment" then
    [push_node node TokenTypes.comment TokenModifiers.abstract]
  else [].

(** The closure [traverse] of [buildTokens], as the sequence of
    [builder.push] calls it makes when run with the cursor on [node]:
    the current node first, then ([gotoFirstChild], [gotoNextSibling]) each
    child's subtree from left to right, then back ([gotoParent]). *)
Fixpoint traverse (node : SyntaxNode) : list PushCall :=
  match node with
  | Node _ _ _ cs => visit node ++ flat_map traverse cs
  end.

Definition run_push (b : SemanticTokensBuilder) (c : PushCall)
    : SemanticTokensBuilder :=
  Builder.push b (p_line c) (p_char c) (p_length c) (p_tokenType c)
    (p_tokenModifiers c).

(** The builder after a sequence of [push] calls. *)
Definition run_pushes (b : SemanticTokensBuilder) (cs : list PushCall)
    : SemanticTokensBuilder :=
  fold_left run_push cs b.

(** [buildTokens] creates the cursor and defines the closure [traverse],
    and returns: the body holds no call of [traverse], so the builder is
    left as it was.  (The earlier revision's body is a commented-out loop
    and leaves the builder alone as well.) *)
Definition buildTokens (builder : SemanticTokensBuilder) (tree : Tree)
    : SemanticTokensBuilder :=
  let treeCursor := walk tree in
  let traverse := fun _ : unit => run_pushes builder (traverse treeCursor) in
  builder.

(** ** The provider and its request handlers *)

(** What [getByUri] returns when the forest knows the document. *)
Record TreeContainer := { tree : Tree }.

(** Modelled from the spec: [Forest.getByUri] of ../forest, the syntax
    tree provider, [getTree(documentId) -> Tree | absent]; a forest is the
    finite map from document identities to their trees. *)
Definition getByUri (forest : gmap string TreeContainer) (uri : string)
    : option TreeContainer :=
  forest !! uri.

(** The fields of the provider that the handlers use.  The builders are
    objects held by the [tokenBuilders] map: a handler that changes a
    builder changes the one in the map. *)
Record SemanticTokensProvider := {
  semanticTokensLegend : option SemanticTokensLegend;
  tokenBuilders : gmap string SemanticTokensBuilder
}.

(** The constructor. *)
Definition new_provider (capabilities : option SemanticTokensClientCapabilities)
    : SemanticTokensProvider :=
  {| semanticTokensLegend := computeLegend <$> capabilities;
     tokenBuilders := ∅ |}.

Definition set_builder (uri : string) (b : SemanticTokensBuilder)
    (this : SemanticTokensProvider) : SemanticTokensProvider :=
  {| semanticTokensLegend := semanticTokensLegend this;
     tokenBuilders := <[uri := b]> (tokenBuilders this) |}.

(** [now] is what [Date.now()] returns if a builder has to be created. *)
Definition getTokenBuilder (now : Z) (uri : string)
    (this : SemanticTokensProvider)
    : SemanticTokensBuilder * SemanticTokensProvider :=
  match tokenBuilders this !! uri with
  | Some result => (result, this)
  | None => let result := Builder.new now in (result, set_builder uri result this)
  end.

Definition handleSemantic (forest : gmap string TreeContainer) (now : Z)
    (uri : string) (this : SemanticTokensProvider)
    : SemanticTokens * SemanticTokensProvider :=
  match getByUri forest uri with
  | None => ({| resultId := None; data := [] |}, this)
  | Some treeContainer =>
      let '(builder, this) := getTokenBuilder now uri this in
      let builder := buildTokens builder (tree treeContainer) in
      let '(result, builder) := Builder.build builder in
      (result, set_builder uri builder this)
  end.

(** [now] as in [handleSemantic]; [now'] is the reading of [Date.now()]
    inside [previousResult]. *)
Definition handleSemanticDelta (forest : gmap string TreeContainer)
    (now now' : Z) (uri previousResultId : string)
    (this : SemanticTokensProvider)
    : SemanticTokens * SemanticTokensProvider :=
  match getByUri forest uri with
  | None => ({| resultId := None; data := [] |}, this)
  | Some treeContainer =>
      let '(builder, this) := getTokenBuilder now uri this in
      let builder := Builder.previousResult now' builder previousResultId in
      let builder := buildTokens builder (tree treeContainer) in
      let '(result, builder) := Builder.build builder in
      (result, set_builder uri builder this)
  end.

(** The answer to a delta request: the handler's declared result is
    [SemanticTokens], one of the two shapes the protocol allows. *)
Definition onDelta (forest : gmap string TreeContainer)
    (now now' : Z) (uri previousResultId : string)
    (this : SemanticTokensProvider)
    : DeltaResult * SemanticTokensProvider :=
  let '(r, this) := handleSemanticDelta forest now now' uri previousResultId this in
  (FullTokens r, this).

Definition date_tree : Tree :=
  {| rootNode := Node "date" {| row := 0; column := 0 |} "2020-01-01" [] |}.

Definition sample_forest : gmap string TreeContainer :=
  {[ "file:///a.bean" := {| tree := date_tree |} ]}.

(** ** On-save validation (server.ts) *)

(** [String.prototype.split] with a one-character separator: the pieces
    between the separators, also the empty ones. *)
Fixpoint split_on (sep : ascii) (s : string) : list string :=
  match s with
  | EmptyString => [""]
  | String c r =>
      if Ascii.eqb c sep then "" :: split_on sep r
      else match split_on sep r with
           | h :: t => String c h :: t
           | [] => [String c ""]
           end
  end.

(** [s.split(sep, limit)]: at most [limit] pieces, the rest is dropped. *)
Definition js_split (s : string) (sep : ascii) (limit : nat) : list string :=
  take limit (split_on sep s).

Definition newline : ascii := ascii_of_nat 10.

Record Position := { pos_line : Z; pos_character : Z }.
Record Range := { range_start : Position; range_end : Position }.
Inductive DiagnosticSeverity := SeverityError | SeverityWarning.

Record Diagnostic := {
  diag_range : Range;
  diag_severity : DiagnosticSeverity;
  diag_message : string
}.

(** A JavaScript object used as a dictionary with string keys: the
    entries in insertion order.  [Object.keys] lists each key once, in the
    order of first insertion, and [o[k]] is the value, or [undefined]. *)
Definition JsObject (V : Type) := list (string * V).

Fixpoint obj_get {V} (o : JsObject V) (k : string) : option V :=
  match o with
  | [] => None
  | (k', v) :: o' => if String.eqb k' k then Some v else obj_get o' k
  end.

Fixpoint Object_keys {V} (o : JsObject V) : list string :=
  match o with
  | [] => []
  | (k, _) :: o' =>
      k :: List.filter (fun k' => negb (String.eqb k k')) (Object_keys o')
  end.

(** What the handler does to the outside: publish the diagnostics of one
    document ([connection.sendDiagnostics]) or write to the error console
    ([connection.console.error]). *)
Inductive Effect :=
  | SendDiagnostics (uri : string) (diagnostics : option (list Diagnostic))
  | ConsoleError (str : string).

(** Modelled from the spec: how a run of the validator process ends
    (success with its output, spawn error, non-zero exit, stream error). *)
Inductive ProcessOutcome :=
  | Completed (stdout : option string)
  | SpawnFailed (reason : string)
  | ExitedNonZero (code : Z) (reason : string)
  | StreamFailed (reason : string).

Section OnSave.

(** Node's [path] module. *)
Variable path_relative : string -> string -> string.
Variable path_dirname : string -> string.
Variable path_basename : string -> string.
Variable path_sep : string.
Variable path_join : string -> string -> string.
Variable __dirname : string.

(** [provideDiagnostics] of ./diagnostics and [runExternalCommand] of
    ./utils, which server.ts imports. *)
Variable provideDiagnostics :
  option string -> option string -> JsObject (list Diagnostic).
Variable runExternalCommand :
  string -> list string -> (option string -> list Effect) ->
  option string -> (string -> list Effect) -> ProcessOutcome -> list Effect.

Variable rootBeancountFile : string.

(** The two arguments that the success callback hands to
    [provideDiagnostics]. *)
Definition sections (text : string) : option string * option string :=
  let output := js_split text newline 3 in
  (output !! 0%nat, output !! 1%nat).

Definition document_uri (file : string) : string :=
  let relative_folder :=
    path_relative (path_dirname rootBeancountFile) (path_dirname file) in
  "file://" +:+ relative_folder +:+ path_sep +:+ path_basename file.

(** The body of [for (const file of Object.keys(diagnostics))]. *)
Definition publish (diagnostics : JsObject (list Diagnostic)) : list Effect :=
  List.map (fun file => SendDiagnostics (document_uri file) (obj_get diagnostics file))
    (Object_keys diagnostics).

Definition diagnostics_of (text : string) : JsObject (list Diagnostic) :=
  let '(errors, flagged) := sections text in
  provideDiagnostics errors flagged.

(** The callback [(text?: string) => { if (text) { ... } }]; the empty
    string is falsy. *)
Definition on_output (text : option string) : list Effect :=
  match text with
  | None => []
  | Some "" => []
  | Some text => publish (diagnostics_of text)
  end.

Definition on_error (str : string) : list Effect := [ConsoleError str].

Definition onDidSaveTextDocument (run : ProcessOutcome) : list Effect :=
  let beanCheckPy := path_join __dirname "../python/bean_check.py" in
  let pyArgs := [beanCheckPy; rootBeancountFile] in
  runExternalCommand "python" pyArgs on_output None on_error run.

End OnSave.

(** The diagnostics the editor holds per document, and what an effect does
    to them: a publish replaces the list of its document. *)
Definition apply_effect (published : gmap string (list Diagnostic)) (e : Effect)
    : gmap string (list Diagnostic) :=
  match e with
  | SendDiagnostics uri ds => <[uri := default [] ds]> published
  | ConsoleError _ => published
  end.

Definition apply_effects (published : gmap string (list Diagnostic))
    (es : list Effect) : gmap string (list Diagnostic) :=
  fold_left apply_effect es published.

Definition is_publish (e : Effect) : bool :=
  match e with SendDiagnostics _ _ => true | ConsoleError _ => false end.

Definition validator_text : string :=
  "2 errors found" +:+ String newline (String newline
    ("/a/b.bean:10: Unbalanced entry" +:+ String newline
      ("/a/b.bean:12: Missing account" +:+ String newline ""))).

(** ** The collaborators of the on-save handler *)

(** Modelled from the spec: ValidatorEntry, one line of validator output
    with its file, its 1-based line, its class and its message. *)
Inductive EntryClass := ClassError | ClassFlagged.

Record ValidatorEntry := {
  entry_file : string;
  entry_line : Z;
  entry_class : EntryClass;
  entry_message : string
}.

Definition digit_of (c : ascii) : option Z :=
  let n := Z.of_nat (nat_of_ascii c) in
  if (48 <=? n)%Z && (n <=? 57)%Z then Some (n - 48) else None.

Fixpoint parse_digits (s : string) (acc : Z) : option Z :=
  match s with
  | EmptyString => Some acc
  | String c r => d ← digit_of c; parse_digits r (10 * acc + d)
  end.

Definition parse_number (s : string) : option Z :=
  match s with
  | EmptyString => None
  | _ => parse_digits s 0
  end.

(** The text before and after the first [sep]. *)
Fixpoint split_first (sep : ascii) (s : string) : option (string * string) :=
  match s with
  | EmptyString => None
  | String c r =>
      if Ascii.eqb c sep then Some ("", r)
      else '(a, b) ← split_first sep r; Some (String c a, b)
  end.

(** Modelled from the spec: a flagged-entry line has the form
    [<file>:<line>: <message>]. *)
Definition parse_entry (class : EntryClass) (l : string) : option ValidatorEntry :=
  '(file, rest) ← split_first ":" l;
  '(num, rest) ← split_first ":" rest;
  n ← parse_number num;
  match rest with
  | String " " message =>
      Some {| entry_file := file; entry_line := n; entry_class := class;
              entry_message := message |}
  | _ => None
  end.

(** Modelled from the spec: the Validator Output Parser (the parsing half
    of [provideDiagnostics], whose module ./diagnostics is not among the
    sources).  Line-oriented and tolerant; a line that does not have the
    positional form is dropped. *)
Definition parse_section (class : EntryClass) (section : string)
    : list ValidatorEntry :=
  omap (parse_entry class) (split_on newline section).

(** Modelled from the spec: the diagnostic of an entry, with a zero-based
    range that covers the reported line. *)
Definition to_diagnostic (e : ValidatorEntry) : Diagnostic :=
  {| diag_range :=
       {| range_start := {| pos_line := entry_line e - 1; pos_character := 0 |};
          range_end := {| pos_line := entry_line e; pos_character := 0 |} |};
     diag_severity :=
       match entry_class e with
       | ClassError => SeverityError
       | ClassFlagged => SeverityWarning
       end;
     diag_message := entry_message e |}.

(** Modelled from the spec: append [v] to the list keyed by [k], which
    starts empty. *)
Fixpoint obj_append {V} (o : JsObject (list V)) (k : string) (v : V)
    : JsObject (list V) :=
  match o with
  | [] => [(k, [v])]
  | (k', vs) :: o' =>
      if String.eqb k' k then (k', vs ++ [v]) :: o'
      else (k', vs) :: obj_append o' k v
  end.

(** Modelled from the spec: the Diagnostic Grouper (the grouping half of
    [provideDiagnostics]): errors become error diagnostics, flagged entries
    warnings, each appended to the list of its file in input order. *)
Definition group_entries (es : list ValidatorEntry) : JsObject (list Diagnostic) :=
  fold_left (fun o e => obj_append o (entry_file e) (to_diagnostic e)) es [].

(** Modelled from the spec: [provideDiagnostics(errors, flagged)] of
    ./diagnostics, the parser followed by the grouper; an argument that is
    [undefined] holds no entries. *)
Definition provideDiagnostics (errors flagged : option string)
    : JsObject (list Diagnostic) :=
  group_entries (parse_section ClassError (default "" errors)
                 ++ parse_section ClassFlagged (default "" flagged)).

(** Modelled from the spec: [runExternalCommand] of ./utils.  The run's
    output goes to the callback when the process completes; a spawn error,
    a non-zero exit or a stream error goes to the logger. *)
Definition runExternalCommand (cmd : string) (args : list string)
    (callback : option string -> list Effect) (stdin : option string)
    (logger : string -> list Effect) (run : ProcessOutcome) : list Effect :=
  match run with
  | Completed stdout => callback stdout
  | SpawnFailed reason => logger reason
  | ExitedNonZero _ reason => logger reason
  | StreamFailed reason => logger reason
  end.

(** A run that fails, or that yields no output text. *)
Definition failed_or_silent (run : ProcessOutcome) : bool :=
  match run with
  | Completed None => true
  | Completed (Some "") => true
  | Completed (Some _) => false
  | _ => true
  end.

(** Node's [path] functions on absolute, normalised POSIX paths, for the
    examples. *)
Module PosixPath.

Definition sep : string := "/".

Definition segments (p : string) : list string :=
  List.filter (fun s => negb (String.eqb s "")) (split_on "/" p).

Definition join_segments (l : list string) : string :=
  String.concat "/" l.

Definition dirname (p : string) : string :=
  match segments p with
  | [] | [_] => "/"
  | l => "/" +:+ join_segments (removelast l)
  end.

Definition basename (p : string) : string := List.last (segments p) "".

Fixpoint strip_common (a b : list string) : list string * list string :=
  match a, b with
  | x :: a', y :: b' =>
      if String.eqb x y then strip_common a' b' else (a, b)
  | _, _ => (a, b)
  end.

Definition relative (from to : string) : string :=
  let '(up, down) := strip_common (segments from) (segments to) in
  join_segments (List.map (fun _ => "..") up ++ down).

Definition join (a b : string) : string := a +:+ "/" +:+ b.

End PosixPath.

Definition sample_root : string := "/a/main.bean".

Definition onDidSave_sample : ProcessOutcome -> list Effect :=
  onDidSaveTextDocument PosixPath.relative PosixPath.dirname PosixPath.basename
    PosixPath.sep PosixPath.join "/srv/out" provideDiagnostics
    runExternalCommand sample_root.

Definition flagged_lines : string :=
  "/a/b.bean:10: Unbalanced entry" +:+ String newline
    "/a/sub/c.bean:12: Missing account".

Definition sample_group : JsObject (list Diagnostic) :=
  provideDiagnostics (Some "2 errors found") (Some flagged_lines).

Definition diag (l : Z) (sev : DiagnosticSeverity) (msg : string) : Diagnostic :=
  {| diag_range :=
       {| range_start := {| pos_line := l - 1; pos_character := 0 |};
          range_end := {| pos_line := l; pos_character := 0 |} |};
     diag_severity := sev; diag_message := msg |}.


(** ** Notions that the properties are stated with *)

(** The enumeration [comment, keyword, string, number] of the
    specification's example. *)
Module SampleEnum.
Definition sentinel : Z := 4.
Definition name (i : Z) : option string :=
  if i <? sentinel then TokenTypes.name i else None.
End SampleEnum.

(** The Classification Rule Table of the specification: the token
    category of each classified node kind. *)
Definition rule_table (kind : string) : option Z :=
  if String.eqb kind "date" then Some TokenTypes.number
  else if String.eqb kind "txn" then Some TokenTypes.property
  else if String.eqb kind "account" then Some TokenTypes.type
  else if String.eqb kind "amount" then Some TokenTypes.number
  else if String.eqb kind "incomplete_amount" then Some TokenTypes.number
  else if String.eqb kind "currency" then Some TokenTypes.property
  else if String.eqb kind "key" then Some TokenTypes.label
  else if String.eqb kind "string" then Some TokenTypes.string
  else if String.eqb kind "tag" then Some TokenTypes.constant
  else if String.eqb kind "comment" then Some TokenTypes.comment
  else None.

(** The nodes of a subtree in the order the cursor visits them. *)
Fixpoint preorder (node : SyntaxNode) : list SyntaxNode :=
  match node with
  | Node _ _ _ cs => node :: flat_map preorder cs
  end.

(** Requests to the provider, each with the readings of the clock it may
    take, and the provider serving a sequence of them; the forest may
    change from one request to the next. *)
Inductive Request :=
  | FullRequest (now : Z) (uri : string)
  | DeltaRequest (now now' : Z) (uri previousResultId : string).

Definition handle (forest : gmap string TreeContainer) (r : Request)
    (this : SemanticTokensProvider) : SemanticTokens * SemanticTokensProvider :=
  match r with
  | FullRequest now uri => handleSemantic forest now uri this
  | DeltaRequest now now' uri prev =>
      handleSemanticDelta forest now now' uri prev this
  end.

Fixpoint serve (rs : list (gmap string TreeContainer * Request))
    (this : SemanticTokensProvider)
    : list SemanticTokens * SemanticTokensProvider :=
  match rs with
  | [] => ([], this)
  | (forest, r) :: rs' =>
      let '(t, this) := handle forest r this in
      let '(ts, this) := serve rs' this in
      (t :: ts, this)
  end.

(** Every cached builder holds no token data. *)
Definition builders_empty (this : SemanticTokensProvider) : Prop :=
  ∀ uri b, tokenBuilders this !! uri = Some b → _data b = [].

(** Positions in document order: by line, then by column. *)
Definition point_le (p q : Z * Z) : Prop :=
  p.1 < q.1 ∨ (p.1 = q.1 ∧ p.2 <= q.2).

Definition point_lt (p q : Z * Z) : Prop :=
  p.1 < q.1 ∨ (p.1 = q.1 ∧ p.2 < q.2).












(** An answer to a delta request that is an empty list of edits. *)
Definition empty_edit_list (r : DeltaResult) : Prop :=
  match r with
  | DeltaTokens d => edits d = []
  | FullTokens _ => False
  end.

(** Whether the previous result id of a delta request is the id of the
    builder cached for the document. *)
Definition cached_previous (this : SemanticTokensProvider)
    (uri previousResultId : string) : bool :=
  match tokenBuilders this !! uri with
  | Some b => String.eqb (Builder.id b) previousResultId
  | None => false
  end.

(** Two full requests and then a delta request on the id they returned,
    with no change of the forest in between. *)
Definition encode_twice_then_delta (forest : gmap string TreeContainer)
    (now1 now2 now3 now3' : Z) (uri : string) (this : SemanticTokensProvider)
    : SemanticTokens * SemanticTokens * DeltaResult :=
  let '(r1, this) := handleSemantic forest now1 uri this in
  let '(r2, this) := handleSemantic forest now2 uri this in
  let '(r3, this) :=
    onDelta forest now3 now3' uri (default "" (resultId r2)) this in
  (r1, r2, r3).

Definition all_capabilities : SemanticTokensClientCapabilities :=
  {| cap_tokenTypes := server_token_types;
     cap_tokenModifiers := server_token_modifiers |}.

Definition comment_only : SemanticTokensClientCapabilities :=
  {| cap_tokenTypes := ["comment"]; cap_tokenModifiers := [] |}.


(** A posting [Assets:Cash  10.00 USD] under an unclassified node. *)
Definition posting : SyntaxNode :=
  Node "posting" {| row := 1; column := 2 |} "Assets:Cash  10.00 USD"
    [Node "account" {| row := 1; column := 2 |} "Assets:Cash" [];
     Node "amount" {| row := 1; column := 15 |} "10.00 USD"
       [Node "number" {| row := 1; column := 15 |} "10.00" [];
        Node "currency" {| row := 1; column := 21 |} "USD" []]].


(** The DiagnosticGroup that the specification expects for
    [validator_text]. *)
Definition expected_group : JsObject (list Diagnostic) :=
  [("/a/b.bean", [diag 10 SeverityWarning "Unbalanced entry";
                  diag 12 SeverityWarning "Missing account"])].

Definition two_flagged_lines : string :=
  "/a/b.bean:10: Unbalanced entry" +:+ String newline
    "/a/b.bean:12: Missing account".

(** ** The if-chain as a table *)

(** The token that the rule table gives a node, if its kind is classified. *)
Definition token_of (node : SyntaxNode) : option PushCall :=
  category ← rule_table (type node);
  Some (push_node node category TokenModifiers.abstract).

(** The client declares every server token type whose value is at most
    [v]. *)
Definition declares_up_to (capability : SemanticTokensClientCapabilities)
    (v : Z) : Prop :=
  ∀ i s, 0 <= i <= v → TokenTypes.name i = Some s →
         s ∈ cap_tokenTypes capability.

(** A cached builder that holds nothing: it is the builder that
    [new SemanticTokensBuilder()] would give, but for its id. *)
Definition builders_idle (this : SemanticTokensProvider) : Prop :=
  ∀ uri b, tokenBuilders this !! uri = Some b → b = Builder.new (_id b).

(** ** The earlier revision of the provider

    src/providers/semanticTokensProvider.ts looks the document up among
    the open text documents and caches the builder under the document's
    own uri. *)

Record TextDocument := { doc_uri : string; getText : string }.

Module Rev0.

(** Modelled from the spec: [TextDocumentEvents.get] of
    ../utils/textDocumentEvents, which plays the part of the syntax tree
    provider here: the open document of a uri, or [undefined]. *)
Definition get (documentEvents : gmap string TextDocument) (uri : string)
    : option TextDocument :=
  documentEvents !! uri.

Definition getTokenBuilder (now : Z) (document : TextDocument)
    (this : SemanticTokensProvider)
    : SemanticTokensBuilder * SemanticTokensProvider :=
  match tokenBuilders this !! doc_uri document with
  | Some result => (result, this)
  | None =>
      let result := Builder.new now in
      (result, set_builder (doc_uri document) result this)
  end.

(** The body reads the text; the loop that would push is commented out. *)
Definition buildTokens (builder : SemanticTokensBuilder) (document : TextDocument)
    : SemanticTokensBuilder :=
  let text := getText document in
  builder.

Definition handleSemantic (documentEvents : gmap string TextDocument) (now : Z)
    (uri : string) (this : SemanticTokensProvider)
    : SemanticTokens * SemanticTokensProvider :=
  match get documentEvents uri with
  | None => ({| resultId := None; data := [] |}, this)
  | Some document =>
      let '(builder, this) := getTokenBuilder now document this in
      let builder := buildTokens builder document in
      let '(result, builder) := Builder.build builder in
      (result, set_builder (doc_uri document) builder this)
  end.

Definition handleSemanticDelta (documentEvents : gmap string TextDocument)
    (now now' : Z) (uri previousResultId : string)
    (this : SemanticTokensProvider)
    : SemanticTokens * SemanticTokensProvider :=
  match get documentEvents uri with
  | None => ({| resultId := None; data := [] |}, this)
  | Some document =>
      let '(builder, this) := getTokenBuilder now document this in
      let builder := Builder.previousResult now' builder previousResultId in
      let builder := buildTokens builder document in
      let '(result, builder) := Builder.build builder in
      (result, set_builder (doc_uri document) builder this)
  end.

Definition handleSemanticRange : SemanticTokens :=
  {| resultId := None; data := [] |}.

Definition handle (documentEvents : gmap string TextDocument) (r : Request)
    (this : SemanticTokensProvider) : SemanticTokens * SemanticTokensProvider :=
  match r with
  | FullRequest now uri => handleSemantic documentEvents now uri this
  | DeltaRequest now now' uri prev =>
      handleSemanticDelta documentEvents now now' uri prev this
  end.

Fixpoint serve (rs : list (gmap string TextDocument * Request))
    (this : SemanticTokensProvider)
    : list SemanticTokens * SemanticTokensProvider :=
  match rs with
  | [] => ([], this)
  | (documentEvents, r) :: rs' =>
      let '(t, this) := handle documentEvents r this in
      let '(ts, this) := serve rs' this in
      (t :: ts, this)
  end.

End Rev0.

(** The open documents and the forest know the same uris, and every open
    document is stored under its own uri. *)
Definition same_documents (documentEvents : gmap string TextDocument)
    (forest : gmap string TreeContainer) : Prop :=
  ∀ uri,
    match documentEvents !! uri with
    | Some document => doc_uri document = uri ∧ is_Some (forest !! uri)
    | None => forest !! uri = None
    end.

(** ** The server object (server.ts) *)

(** [s.replace(pattern, replacer)] with a one-character string pattern and
    a function as replacer: the first occurrence of the pattern becomes
    what the function returns, taken literally; later occurrences stay. *)
Fixpoint replace_first (pattern : ascii) (replacement : string) (s : string)
    : string :=
  match s with
  | EmptyString => EmptyString
  | String c r =>
      if Ascii.eqb c pattern then replacement +:+ r
      else String c (replace_first pattern replacement r)
  end.

Definition tilde : ascii := "~".

(** A value of [params.initializationOptions], which has type [any] and
    comes as JSON. *)
Inductive JsValue :=
  | JsString (s : string)
  | JsNumber (z : Z)
  | JsBoolean (b : bool)
  | JsNull
  | JsStructured.

(** [params.initializationOptions] itself: [undefined] or [null], a
    primitive value (which has no property [rootBeancountFile]), or an
    object. *)
Inductive InitializationOptions :=
  | OptionsAbsent
  | OptionsPrimitive
  | OptionsObject (properties : gmap string JsValue).

Record InitializeParams := {
  initializationOptions : InitializationOptions
}.

Record BeancountServer (Analyzer : Type) := {
  rootBeancountFile : string;
  analyzer : Analyzer
}.
Arguments rootBeancountFile {Analyzer} _.
Arguments analyzer {Analyzer} _.

(** How [initialize] ends: with the server, with the [Error] it throws,
    with a [TypeError] (a property of [undefined] is read, or [replace] is
    called on a value that is no string), or with whatever a collaborator
    throws. *)
Inductive InitializeResult (Analyzer : Type) :=
  | Initialized (server : BeancountServer Analyzer)
  | Thrown (message : string)
  | TypeError
  | CollaboratorFailed.
Arguments Initialized {Analyzer} _.
Arguments Thrown {Analyzer} _.
Arguments TypeError {Analyzer}.
Arguments CollaboratorFailed {Analyzer}.

Section Initialize.

(** [initializeParser] of ./parser and [TreeSitterAnalyzer.fromBeancountFile]
    of ./tree-sitter, which server.ts imports; [None] is a call that
    throws.  [homedir] is what [os.homedir()] returns. *)
Variables Parser Analyzer : Type.
Variable initializeParser : option Parser.
Variable fromBeancountFile : JsValue → Parser → option Analyzer.
Variable homedir : string.

(** The private constructor. *)
Definition new_server (params : InitializeParams) (analyzer : Analyzer)
    : InitializeResult Analyzer :=
  match initializationOptions params with
  | OptionsObject opts =>
      match opts !! "rootBeancountFile" with
      | Some (JsString root) =>
          Initialized {| rootBeancountFile := replace_first tilde homedir root;
                         analyzer := analyzer |}
      | _ => TypeError
      end
  | _ => TypeError
  end.

Definition initialize (params : InitializeParams) : InitializeResult Analyzer :=
  match initializeParser with
  | None => CollaboratorFailed
  | Some parser =>
      match initializationOptions params with
      | OptionsAbsent => TypeError
      | OptionsPrimitive =>
          Thrown "Must include rootBeancountFile in Initiaize parameters"
      | OptionsObject opts =>
          match opts !! "rootBeancountFile" with
          | None | Some JsNull =>
              Thrown "Must include rootBeancountFile in Initiaize parameters"
          | Some rootBeancountFile =>
              match fromBeancountFile rootBeancountFile parser with
              | None => CollaboratorFailed
              | Some analyzer => new_server params analyzer
              end
          end
      end
  end.

End Initialize.

(** ** onDocumentFormatting *)

(** A value of a formatting option. *)
Inductive OptionValue :=
  | VBool (b : bool)
  | VInt (z : Z)
  | VString (s : string).

(** [FormattingOptions]: the two required properties, and the further
    keys that the index signature allows. *)
Record FormattingOptions := {
  tabSize : Z;
  insertSpaces : bool;
  further : gmap string OptionValue
}.

Record TextEdit := { text_edit_range : Range; newText : string }.

Record DocumentFormattingParams := {
  formatting_uri : string;
  options : FormattingOptions
}.

(** The two assignments under [// translate]. *)
Definition translate (opts : FormattingOptions) : FormattingOptions :=
  let opts :=
    match further opts !! "convertTabsToSpaces" with
    | None =>
        {| tabSize := tabSize opts; insertSpaces := insertSpaces opts;
           further := <["convertTabsToSpaces" := VBool (insertSpaces opts)]>
                        (further opts) |}
    | Some _ => opts
    end in
  match further opts !! "indentSize" with
  | None =>
      {| tabSize := tabSize opts; insertSpaces := insertSpaces opts;
         further := <["indentSize" := VInt (tabSize opts)]> (further opts) |}
  | Some _ => opts
  end.

(** The handler's answer, and the request's parameters as the handler
    leaves them: [opts] is the object [params.options] itself. *)
Definition onDocumentFormatting (documents : gmap string TextDocument)
    (params : DocumentFormattingParams)
    : list TextEdit * DocumentFormattingParams :=
  match documents !! formatting_uri params with
  | None => ([], params)
  | Some file =>
      ([], {| formatting_uri := formatting_uri params;
              options := translate (options params) |})
  end.

(** ** Further notions *)

(** A text without a line break. *)
Fixpoint one_line (s : string) : bool :=
  match s with
  | EmptyString => true
  | String c r => negb (Ascii.eqb c newline) && one_line r
  end.

Fixpoint contains (c : ascii) (s : string) : bool :=
  match s with
  | EmptyString => false
  | String c' r => Ascii.eqb c' c || contains c r
  end.

Definition effect_uri (e : Effect) : option string :=
  match e with
  | SendDiagnostics uri _ => Some uri
  | ConsoleError _ => None
  end.

Definition sample_documents : gmap string TextDocument :=
  {[ "file:///a.bean" := {| doc_uri := "file:///a.bean";
                            getText := "2020-01-01" |} ]}.

Definition sample_options : FormattingOptions :=
  {| tabSize := 4; insertSpaces := true;
     further := {[ "indentSize" := VInt 2 ]} |}.

Definition request_uri (r : Request) : string :=
  match r with
  | FullRequest _ uri => uri
  | DeltaRequest _ _ uri _ => uri
  end.

(** The capability that declares exactly what a legend lists. *)
Definition capability_of (legend : SemanticTokensLegend)
    : SemanticTokensClientCapabilities :=
  {| cap_tokenTypes := tokenTypes legend;
     cap_tokenModifiers := tokenModifiers legend |}.

(** * Properties *)

Example rev0_token_types :
  enum_names TokenTypesRev0.name TokenTypesRev0.sentinel =
  ["comment"; "keyword"; "string"; "number"; "type"; "class"; "interface";
   "enum"; "typeParameter"; "function"; "member"; "property"; "variable";
   "parameter"].
Proof. reflexivity. Qed.


Example server_token_types_eq :
  server_token_types =
  ["comment"; "keyword"; "string"; "number"; "type"; "property";
   "parameter"; "label"; "constant"].
Proof. reflexivity. Qed.

Example server_token_modifiers_eq :
  server_token_modifiers = ["abstract"; "deprecated"].
Proof. reflexivity. Qed.

Example computeLegend_sample :
  computeLegend {| cap_tokenTypes := ["string"; "number"; "comment"];
                   cap_tokenModifiers := ["deprecated"] |}
  = {| tokenTypes := ["comment"; "string"; "number"];
       tokenModifiers := ["deprecated"] |}.
Proof. vm_compute. reflexivity. Qed.

Example traverse_date_tree :
  traverse (rootNode date_tree) =
  [ {| p_line := 0; p_char := 0; p_length := 10; p_tokenType := 3;
       p_tokenModifiers := 0 |} ].
Proof. reflexivity. Qed.

Example handleSemantic_date_tree :
  fst (handleSemantic sample_forest 1600000000000 "file:///a.bean" (new_provider None))
  = {| resultId := Some "1600000000000"; data := [] |}.
Proof. vm_compute. reflexivity. Qed.

Example split_validator_text :
  split_on newline validator_text =
  ["2 errors found"; ""; "/a/b.bean:10: Unbalanced entry";
   "/a/b.bean:12: Missing account"; ""].
Proof. reflexivity. Qed.

Example sections_validator_text :
  sections validator_text = (Some "2 errors found", Some "").
Proof. reflexivity. Qed.

Example sample_group_eq :
  sample_group =
  [("/a/b.bean", [diag 10 SeverityWarning "Unbalanced entry"]);
   ("/a/sub/c.bean", [diag 12 SeverityWarning "Missing account"])].
Proof. reflexivity. Qed.

Example publish_sample_group :
  publish PosixPath.relative PosixPath.dirname PosixPath.basename PosixPath.sep
    sample_root sample_group =
  [SendDiagnostics "file:///b.bean"
     (Some [diag 10 SeverityWarning "Unbalanced entry"]);
   SendDiagnostics "file://sub/c.bean"
     (Some [diag 12 SeverityWarning "Missing account"])].
Proof. reflexivity. Qed.

Example onDidSave_validator_text :
  onDidSave_sample (Completed (Some validator_text)) = [].
Proof. reflexivity. Qed.

(** ** Legend negotiation *)

Section LegendLoop.

Variable name : Z -> option string.
Variable client : gset string.

Lemma legend_fold_filter (l : list Z) (out : list string) :
  fold_left (legend_step name client) l out
  = out ++ filter (λ s, s ∈ client) (omap name l).
Proof.
  revert out. induction l as [|i l IH]; intros out; simpl.
  - by rewrite app_nil_r.
  - rewrite IH. unfold legend_step.
    destruct (name i) as [str|]; [|done].
    rewrite filter_cons. destruct (decide (str ∈ client)); [|done].
    by rewrite <- app_assoc.
Qed.

Lemma legend_loop_filter (bound : Z) :
  legend_loop name bound client
  = filter (λ s, s ∈ client) (enum_names name bound).
Proof. unfold legend_loop. by rewrite legend_fold_filter. Qed.

End LegendLoop.

Lemma legend_loop_of_list (name : Z -> option string) (bound : Z)
    (declared : list string) :
  legend_loop name bound (list_to_set declared)
  = filter (λ s, s ∈ declared) (enum_names name bound).
Proof.
  rewrite legend_loop_filter. apply list_filter_iff.
  intros s. apply elem_of_list_to_set.
Qed.

(** C3.  The legend that [computeLegend] returns lists, for token types
    and for token modifiers alike, exactly the names that are both in the
    server's enumeration and in the client's set, in the order of the
    server's enumeration.  For the server order
    [comment, keyword, string, number] and the client set
    {string, number, comment} the negotiated list is
    [comment, string, number]. *)
Theorem computeLegend_intersection (capability : SemanticTokensClientCapabilities) :
  tokenTypes (computeLegend capability)
    = filter (λ s, s ∈ cap_tokenTypes capability) server_token_types ∧
  tokenModifiers (computeLegend capability)
    = filter (λ s, s ∈ cap_tokenModifiers capability) server_token_modifiers ∧
  (∀ s, s ∈ tokenTypes (computeLegend capability)
        ↔ s ∈ server_token_types ∧ s ∈ cap_tokenTypes capability) ∧
  (∀ s, s ∈ tokenModifiers (computeLegend capability)
        ↔ s ∈ server_token_modifiers ∧ s ∈ cap_tokenModifiers capability) ∧
  tokenTypes (computeLegend capability) `sublist_of` server_token_types ∧
  tokenModifiers (computeLegend capability) `sublist_of` server_token_modifiers ∧
  enum_names SampleEnum.name SampleEnum.sentinel
    = ["comment"; "keyword"; "string"; "number"] ∧
  legend_loop SampleEnum.name SampleEnum.sentinel
    (list_to_set ["string"; "number"; "comment"])
    = ["comment"; "string"; "number"] ∧
  tokenTypes (computeLegend {| cap_tokenTypes := ["string"; "number"; "comment"];
                               cap_tokenModifiers := [] |})
    = ["comment"; "string"; "number"].
Proof.
  assert (Ht : tokenTypes (computeLegend capability)
    = filter (λ s, s ∈ cap_tokenTypes capability) server_token_types)
    by apply legend_loop_of_list.
  assert (Hm : tokenModifiers (computeLegend capability)
    = filter (λ s, s ∈ cap_tokenModifiers capability) server_token_modifiers)
    by apply legend_loop_of_list.
  split_and!.
  - exact Ht.
  - exact Hm.
  - intros s. rewrite Ht, list_elem_of_filter. tauto.
  - intros s. rewrite Hm, list_elem_of_filter. tauto.
  - rewrite Ht. apply sublist_filter.
  - rewrite Hm. apply sublist_filter.
  - reflexivity.
  - vm_compute. reflexivity.
  - vm_compute. reflexivity.
Qed.

(** ** The traversal *)

Lemma SyntaxNode_nested_ind (P : SyntaxNode → Prop) :
  (∀ t p s cs, Forall P cs → P (Node t p s cs)) → ∀ n, P n.
Proof.
  intros step. fix rec 1. intros [t p s cs]. apply step.
  induction cs as [|c cs IH]; constructor; [apply rec | exact IH].
Qed.

Lemma visit_rule_table (node : SyntaxNode) :
  visit node =
  match rule_table (type node) with
  | Some category => [push_node node category TokenModifiers.abstract]
  | None => []
  end.
Proof.
  unfold visit, rule_table.
  repeat (destruct (String.eqb (type node) _); [reflexivity|]).
  reflexivity.
Qed.

Lemma traverse_unfold (node : SyntaxNode) :
  traverse node = visit node ++ flat_map traverse (children node).
Proof. by destruct node. Qed.

Lemma preorder_unfold (node : SyntaxNode) :
  preorder node = node :: flat_map preorder (children node).
Proof. by destruct node. Qed.

(** The traversal visits the nodes in pre-order and does to each what
    [visit] does. *)
Lemma traverse_preorder (node : SyntaxNode) :
  traverse node = flat_map visit (preorder node).
Proof.
  induction node as [t p s cs IH] using SyntaxNode_nested_ind.
  rewrite traverse_unfold, preorder_unfold. simpl. f_equal.
  induction IH as [|c cs Hc _ IHcs]; [done|].
  simpl. by rewrite flat_map_app, Hc, IHcs.
Qed.

Lemma elem_of_flat_map {A B} (f : A → list B) (l : list A) (y : B) :
  y ∈ flat_map f l ↔ ∃ x, x ∈ l ∧ y ∈ f x.
Proof.
  rewrite list_elem_of_In, in_flat_map. split.
  - intros (x & Hx & Hy). exists x. by rewrite !list_elem_of_In.
  - intros (x & Hx & Hy). exists x. by rewrite <- !list_elem_of_In.
Qed.

Lemma elem_of_traverse (root : SyntaxNode) (c : PushCall) :
  c ∈ traverse root ↔ ∃ n, n ∈ preorder root ∧ c ∈ visit n.
Proof. rewrite traverse_preorder. apply elem_of_flat_map. Qed.

Lemma elem_of_visit (node : SyntaxNode) (c : PushCall) :
  c ∈ visit node ↔
  ∃ category, rule_table (type node) = Some category ∧
              c = push_node node category TokenModifiers.abstract.
Proof.
  rewrite visit_rule_table. destruct (rule_table (type node)) as [cat|].
  - rewrite list_elem_of_singleton. split.
    + intros ->. by exists cat.
    + by intros (cat' & [= <-] & ->).
  - split; [by intros ?%elem_of_nil | by intros (? & ? & _)].
Qed.

(** What the closure does when it is run: each node of a classified kind
    gets its token, a node of another kind gets none, and the children are
    visited either way. *)
Lemma traverse_classifies (root : SyntaxNode) :
  (∀ n category, n ∈ preorder root → rule_table (type n) = Some category →
     push_node n category TokenModifiers.abstract ∈ traverse root) ∧
  (∀ n, rule_table (type n) = None →
     traverse n = flat_map traverse (children n)).
Proof.
  split.
  - intros n category Hn Hcat. apply elem_of_traverse. exists n.
    split; [done|]. apply elem_of_visit. by exists category.
  - intros n Hn. by rewrite traverse_unfold, visit_rule_table, Hn.
Qed.

Lemma rule_table_range (kind : string) (category : Z) :
  rule_table kind = Some category →
  0 <= category < 9 ∧ category ≠ TokenTypes.keyword ∧
  category ≠ TokenTypes.parameter.
Proof.
  unfold rule_table.
  repeat (destruct (String.eqb kind _); [intros [= <-]; by vm_compute|]).
  done.
Qed.

(** The wire data holds five integers for each push. *)
Lemma run_pushes_length (cs : list PushCall) (b : SemanticTokensBuilder) :
  List.length (_data (run_pushes b cs))
  = (List.length (_data b) + 5 * List.length cs)%nat.
Proof.
  revert b. induction cs as [|c cs IH]; intros b; [simpl; lia|].
  change (run_pushes b (c :: cs)) with (run_pushes (run_push b c) cs).
  rewrite IH. unfold run_push, Builder.push. cbn [_data].
  rewrite length_app. simpl. lia.
Qed.

(** The data that a new builder would hold after the traversal of
    [posting]: positions relative to the token before. *)
Example run_pushes_posting :
  _data (run_pushes (Builder.new 0) (traverse posting))
  = [1; 2; 11; 4; 0;  0; 13; 9; 3; 0;  0; 6; 3; 5; 0].
Proof. reflexivity. Qed.

(** ** The handlers emit no token *)

Lemma buildTokens_id (builder : SemanticTokensBuilder) (tree : Tree) :
  buildTokens builder tree = builder.
Proof. reflexivity. Qed.

Lemma builders_empty_set_builder uri b this :
  _data b = [] → builders_empty this → builders_empty (set_builder uri b this).
Proof.
  intros Hb Hthis uri' b'. simpl. rewrite lookup_insert.
  case_decide; [by intros [= <-] | apply Hthis].
Qed.

Lemma getTokenBuilder_empty now uri this :
  builders_empty this →
  _data (getTokenBuilder now uri this).1 = [] ∧
  builders_empty (getTokenBuilder now uri this).2.
Proof.
  intros Hthis. unfold getTokenBuilder.
  destruct (tokenBuilders this !! uri) as [b|] eqn:Hb; simpl.
  - split; [by eapply Hthis | done].
  - split; [done|]. by apply builders_empty_set_builder.
Qed.

Lemma handle_empty forest r this :
  builders_empty this →
  data (handle forest r this).1 = [] ∧ builders_empty (handle forest r this).2.
Proof.
  intros Hthis.
  destruct r as [now uri | now now' uri prev]; simpl;
    unfold handleSemantic, handleSemanticDelta;
    destruct (getByUri forest uri) as [tc|]; try done;
    destruct (getTokenBuilder_empty now uri this Hthis) as [Hb Hthis'];
    destruct (getTokenBuilder now uri this) as [b this']; simpl in *.
  - split; [done|]. by apply builders_empty_set_builder.
  - split; [done|]. by apply builders_empty_set_builder.
Qed.

Lemma serve_empty rs this :
  builders_empty this → Forall (λ t, data t = []) (serve rs this).1.
Proof.
  revert this. induction rs as [|[forest r] rs IH]; intros this Hthis; simpl.
  - constructor.
  - destruct (handle_empty forest r this Hthis) as [Ht Hthis'].
    destruct (handle forest r this) as [t this']; simpl in *.
    specialize (IH this' Hthis').
    destruct (serve rs this') as [ts this'']; simpl in *.
    by constructor.
Qed.

Lemma new_provider_empty capabilities : builders_empty (new_provider capabilities).
Proof. intros uri b. simpl. by rewrite lookup_empty. Qed.

(** C1.  A full encode emits no token, whatever the tree: [buildTokens]
    defines the traversal and never runs it.  The specification asks for
    a token at every node of a classified kind; the closure, run on the
    same tree, pushes that token.  Shown for every builder and tree, for
    every sequence of requests to a new provider, and on a document that
    consists of one [date] node. *)
Theorem full_encode_emits_nothing :
  (∀ builder tree, buildTokens builder tree = builder) ∧
  (∀ capabilities rs,
     Forall (λ t, data t = []) (serve rs (new_provider capabilities)).1) ∧
  traverse (rootNode date_tree) =
    [ {| p_line := 0; p_char := 0; p_length := 10;
         p_tokenType := TokenTypes.number;
         p_tokenModifiers := TokenModifiers.abstract |} ] ∧
  (handleSemantic sample_forest 1600000000000 "file:///a.bean"
     (new_provider (Some all_capabilities))).1
  = {| resultId := Some "1600000000000"; data := [] |}.
Proof.
  split_and!.
  - apply buildTokens_id.
  - intros capabilities rs. apply serve_empty, new_provider_empty.
  - reflexivity.
  - vm_compute. reflexivity.
Qed.

(** ** Modifiers *)

(** C10.  Every token that the traversal pushes carries the modifier
    value [TokenModifiers.abstract], which is 0, whatever the kind of the
    node it comes from. *)
Theorem traverse_modifier_abstract (root : SyntaxNode) (c : PushCall) :
  c ∈ traverse root →
  p_tokenModifiers c = TokenModifiers.abstract ∧ p_tokenModifiers c = 0.
Proof.
  intros (n & _ & (category & _ & ->)%elem_of_visit)%elem_of_traverse.
  by split.
Qed.

Lemma traverse_modifier_abstract_witness :
  push_node (rootNode date_tree) TokenTypes.number TokenModifiers.abstract
    ∈ traverse (rootNode date_tree) ∧
  p_tokenModifiers
    (push_node (rootNode date_tree) TokenTypes.number TokenModifiers.abstract)
    = 0.
Proof.
  assert (H : push_node (rootNode date_tree) TokenTypes.number
                TokenModifiers.abstract ∈ traverse (rootNode date_tree))
    by (simpl; left).
  split; [exact H|].
  exact (proj2 (traverse_modifier_abstract (rootNode date_tree) _ H)).
Defined.

(** ** Tokens and the legend *)

Lemma server_types_lookup (kind : string) (category : Z) :
  rule_table kind = Some category →
  server_token_types !! Z.to_nat category = TokenTypes.name category ∧
  is_Some (TokenTypes.name category).
Proof.
  unfold rule_table.
  repeat (destruct (String.eqb kind _);
          [intros [= <-]; split; [reflexivity | by eexists]|]).
  done.
Qed.




(** ** Order of the tokens *)

#[local] Instance point_le_trans : Transitive point_le.
Proof. intros [a b] [c d] [e f]; unfold point_le; simpl; lia. Qed.

#[local] Instance point_lt_trans : Transitive point_lt.
Proof. intros [a b] [c d] [e f]; unfold point_lt; simpl; lia. Qed.






(** ** Missing state *)

(** A delta request is answered like a full request to a provider that
    has no cached builder, created at the time of the re-initialisation. *)
Lemma delta_as_fresh_full forest now now' uri previousResultId this :
  (handleSemanticDelta forest now now' uri previousResultId this).1
  = (handleSemantic forest now' uri (new_provider None)).1.
Proof.
  unfold handleSemanticDelta, handleSemantic.
  destruct (getByUri forest uri) as [tc|]; [|done].
  unfold getTokenBuilder; simpl. rewrite lookup_empty.
  by destruct (tokenBuilders this !! uri).
Qed.

Lemma fresh_full forest now uri tc :
  getByUri forest uri = Some tc →
  (handleSemantic forest now uri (new_provider None)).1
  = {| resultId := Some (pretty now);
       data := _data (buildTokens (Builder.new now) (tree tc)) |}.
Proof.
  intros Htc. unfold handleSemantic. rewrite Htc.
  unfold getTokenBuilder; simpl. by rewrite lookup_empty.
Qed.

(** C6.  When the forest has no tree for the document, a full and a delta
    request both return [{ data: [] }] and leave the provider as it was.
    A delta request on a document that has a tree, with a previous result
    id that is not the id of the cached builder, returns a full stream:
    the one a full request returns when nothing is cached. *)
Theorem missing_state_recovered
    (forest forest' : gmap string TreeContainer) (now now' : Z)
    (uri uri' previousResultId : string) (tc : TreeContainer)
    (this this' : SemanticTokensProvider) :
  getByUri forest uri = None →
  getByUri forest' uri' = Some tc →
  cached_previous this' uri' previousResultId = false →
  handleSemantic forest now uri this
    = ({| resultId := None; data := [] |}, this) ∧
  handleSemanticDelta forest now now' uri previousResultId this
    = ({| resultId := None; data := [] |}, this) ∧
  (handleSemanticDelta forest' now now' uri' previousResultId this').1
    = {| resultId := Some (pretty now');
         data := _data (buildTokens (Builder.new now') (tree tc)) |} ∧
  (handleSemanticDelta forest' now now' uri' previousResultId this').1
    = (handleSemantic forest' now' uri' (new_provider None)).1.
Proof.
  intros Hnone Htc _. split_and!.
  - unfold handleSemantic. by rewrite Hnone.
  - unfold handleSemanticDelta. by rewrite Hnone.
  - rewrite delta_as_fresh_full. by apply fresh_full.
  - apply delta_as_fresh_full.
Qed.

Lemma missing_state_recovered_witness :
  getByUri sample_forest "file:///other.bean" = None ∧
  getByUri sample_forest "file:///a.bean" = Some {| tree := date_tree |} ∧
  cached_previous
    (handleSemantic sample_forest 5 "file:///a.bean" (new_provider None)).2
    "file:///a.bean" "17" = false ∧
  handleSemantic sample_forest 5 "file:///other.bean" (new_provider None)
    = ({| resultId := None; data := [] |}, new_provider None) ∧
  (handleSemanticDelta sample_forest 6 7 "file:///a.bean" "17"
     (handleSemantic sample_forest 5 "file:///a.bean" (new_provider None)).2).1
    = {| resultId := Some "7"; data := [] |}.
Proof.
  assert (H1 : getByUri sample_forest "file:///other.bean" = None)
    by (vm_compute; reflexivity).
  assert (H2 : getByUri sample_forest "file:///a.bean"
               = Some {| tree := date_tree |})
    by (vm_compute; reflexivity).
  assert (H3 : cached_previous
            (handleSemantic sample_forest 5 "file:///a.bean" (new_provider None)).2
            "file:///a.bean" "17" = false)
    by (vm_compute; reflexivity).
  split; [exact H1|]. split; [exact H2|]. split; [exact H3|].
  split.
  - exact (proj1 (missing_state_recovered sample_forest sample_forest 5 7
      "file:///other.bean" "file:///a.bean" "17" _
      (new_provider None) _ H1 H2 H3)).
  - exact (proj1 (proj2 (proj2 (missing_state_recovered sample_forest
      sample_forest 6 7 "file:///other.bean" "file:///a.bean" "17" _
      (new_provider None) _ H1 H2 H3)))).
Defined.

(** ** Delta requests *)

(** C7, as the code has it.  A delta request is answered with a full
    token stream, never with a list of edits: after two full requests with
    no edit in between, the delta request on the result id they returned
    gets the stream that a full request returns when nothing is cached.
    The same holds for every delta request. *)
Theorem delta_answers_full_stream (forest : gmap string TreeContainer)
    (now1 now2 now3 now3' : Z) (uri previousResultId : string)
    (this : SemanticTokensProvider) :
  (encode_twice_then_delta forest now1 now2 now3 now3' uri this).2
    = FullTokens (handleSemantic forest now3' uri (new_provider None)).1 ∧
  (onDelta forest now3 now3' uri previousResultId this).1
    = FullTokens (handleSemantic forest now3' uri (new_provider None)).1.
Proof.
  assert (Hdelta : ∀ prev that,
    (onDelta forest now3 now3' uri prev that).1
    = FullTokens (handleSemantic forest now3' uri (new_provider None)).1).
  { intros prev that. unfold onDelta.
    rewrite <- (delta_as_fresh_full forest now3 now3' uri prev that).
    by destruct (handleSemanticDelta forest now3 now3' uri prev that). }
  split; [|apply Hdelta].
  unfold encode_twice_then_delta.
  destruct (handleSemantic forest now1 uri this) as [r1 this1].
  destruct (handleSemantic forest now2 uri this1) as [r2 this2].
  specialize (Hdelta (default "" (resultId r2)) this2).
  by destruct (onDelta forest now3 now3' uri (default "" (resultId r2)) this2).
Qed.

(** C7 fails as stated: for the document of one [date] node, the delta
    request after two full requests is answered with a full stream, not
    with an empty list of edits. *)
Lemma delta_not_an_edit_list :
  encode_twice_then_delta sample_forest 1 2 3 4 "file:///a.bean"
    (new_provider (Some all_capabilities))
  = ({| resultId := Some "1"; data := [] |},
     {| resultId := Some "1"; data := [] |},
     FullTokens {| resultId := Some "4"; data := [] |}) ∧
  ¬ empty_edit_list
      (encode_twice_then_delta sample_forest 1 2 3 4 "file:///a.bean"
         (new_provider (Some all_capabilities))).2.
Proof.
  assert (H : encode_twice_then_delta sample_forest 1 2 3 4 "file:///a.bean"
                (new_provider (Some all_capabilities))
              = ({| resultId := Some "1"; data := [] |},
                 {| resultId := Some "1"; data := [] |},
                 FullTokens {| resultId := Some "4"; data := [] |}))
    by (vm_compute; reflexivity).
  split; [exact H|]. rewrite H. simpl. tauto.
Qed.

(** ** Publishing the diagnostics *)

Lemma elem_of_Object_keys {V} (o : JsObject V) (k : string) :
  k ∈ Object_keys o ↔ is_Some (obj_get o k).
Proof.
  induction o as [|[k' v] o IH]; simpl.
  - split; [by intros ?%elem_of_nil | by intros [? ?]].
  - rewrite elem_of_cons, list_elem_of_In, filter_In, <- list_elem_of_In, IH.
    destruct (String.eqb_spec k' k) as [->|Hne]; simpl.
    + split; [by eexists | by left].
    + split; [intros [->| [? _]]; done | intros ?; by right].
Qed.

Lemma NoDup_Object_keys {V} (o : JsObject V) : NoDup (Object_keys o).
Proof.
  induction o as [|[k v] o IH]; simpl; constructor.
  - rewrite list_elem_of_In, filter_In. intros [_ H].
    by rewrite String.eqb_refl in H.
  - apply NoDup_ListNoDup, List.NoDup_filter, NoDup_ListNoDup, IH.
Qed.

Lemma Forall2_map_keys {A B} (f : A → B) (R : A → B → Prop) (l : list A) :
  (∀ x, x ∈ l → R x (f x)) → Forall2 R l (List.map f l).
Proof.
  induction l as [|x l IH]; intros H; simpl; constructor.
  - apply H. left.
  - apply IH. intros y Hy. apply H. by right.
Qed.

(** C8.  Whatever group [provideDiagnostics] returns, the handler makes
    one [sendDiagnostics] call for each of its file keys, no key twice;
    the call carries the whole list stored under that key and names the
    document by the key's folder relative to the folder of the root
    beancount file, followed by the separator and the file's base name.
    A run with output text publishes the group of that text in this way. *)
Theorem publish_one_per_file
    (path_relative : string → string → string)
    (path_dirname path_basename : string → string) (path_sep : string)
    (provide : option string → option string → JsObject (list Diagnostic))
    (rootBeancountFile : string) (diagnostics : JsObject (list Diagnostic)) :
  NoDup (Object_keys diagnostics) ∧
  (∀ file, file ∈ Object_keys diagnostics ↔ is_Some (obj_get diagnostics file)) ∧
  Forall2
    (λ file e, ∃ ds,
       obj_get diagnostics file = Some ds ∧
       e = SendDiagnostics
             ("file://"
              +:+ path_relative (path_dirname rootBeancountFile) (path_dirname file)
              +:+ path_sep +:+ path_basename file)
             (Some ds))
    (Object_keys diagnostics)
    (publish path_relative path_dirname path_basename path_sep
       rootBeancountFile diagnostics) ∧
  (∀ c text,
     on_output path_relative path_dirname path_basename path_sep provide
       rootBeancountFile (Some (String c text))
     = publish path_relative path_dirname path_basename path_sep
         rootBeancountFile (diagnostics_of provide (String c text))).
Proof.
  split_and!.
  - apply NoDup_Object_keys.
  - apply elem_of_Object_keys.
  - unfold publish. apply Forall2_map_keys. intros file Hfile.
    apply elem_of_Object_keys in Hfile as [ds Hds].
    exists ds. by rewrite Hds.
  - reflexivity.
Qed.

(** ** Failed runs *)

(** C9.  When the validator run fails (spawn error, non-zero exit, stream
    error) the handler's only effect is one line on the error console;
    when the run yields no output text the handler has no effect.  In
    either case nothing is published and the diagnostics that the editor
    holds stay as they are. *)
Theorem failed_run_publishes_nothing
    (path_relative : string → string → string)
    (path_dirname path_basename : string → string) (path_sep : string)
    (path_join : string → string → string) (dirname : string)
    (provide : option string → option string → JsObject (list Diagnostic))
    (rootBeancountFile : string) (run : ProcessOutcome)
    (published : gmap string (list Diagnostic)) :
  failed_or_silent run = true →
  Forall (λ e, is_publish e = false)
    (onDidSaveTextDocument path_relative path_dirname path_basename path_sep
       path_join dirname provide runExternalCommand rootBeancountFile run) ∧
  apply_effects published
    (onDidSaveTextDocument path_relative path_dirname path_basename path_sep
       path_join dirname provide runExternalCommand rootBeancountFile run)
  = published ∧
  onDidSaveTextDocument path_relative path_dirname path_basename path_sep
    path_join dirname provide runExternalCommand rootBeancountFile run
  = match run with
    | Completed _ => []
    | SpawnFailed reason | ExitedNonZero _ reason | StreamFailed reason =>
        [ConsoleError reason]
    end.
Proof.
  intros Hrun. unfold onDidSaveTextDocument, runExternalCommand.
  destruct run as [[[|c text]|]|reason|code reason|reason]; try discriminate;
    simpl; split_and!; try reflexivity; repeat constructor.
Qed.

Lemma failed_run_publishes_nothing_witness :
  failed_or_silent (ExitedNonZero 1 "bean_check.py exited with code 1") = true ∧
  onDidSave_sample (ExitedNonZero 1 "bean_check.py exited with code 1")
  = [ConsoleError "bean_check.py exited with code 1"].
Proof.
  assert (H : failed_or_silent
                (ExitedNonZero 1 "bean_check.py exited with code 1") = true)
    by reflexivity.
  split; [exact H|].
  exact (proj2 (proj2 (failed_run_publishes_nothing PosixPath.relative
    PosixPath.dirname PosixPath.basename PosixPath.sep PosixPath.join
    "/srv/out" provideDiagnostics sample_root _ ∅ H))).
Defined.

(** ** The validator's output text *)

(** C2, as the code has it.  The handler splits the text at newlines into
    at most three pieces and hands the first, [2 errors found], and the
    second, the empty string, to [provideDiagnostics]; the two flagged
    lines are in the third piece and in what the limit drops.  Neither
    section holds a positioned entry, so the group is empty and nothing is
    published.  The parser and the grouper give the expected group of one
    file with two diagnostics in input order when the two lines are the
    flagged section. *)
Theorem validator_text_sections :
  js_split validator_text newline 3
    = ["2 errors found"; ""; "/a/b.bean:10: Unbalanced entry"] ∧
  sections validator_text = (Some "2 errors found", Some "") ∧
  (∀ provide, diagnostics_of provide validator_text
              = provide (Some "2 errors found") (Some "")) ∧
  diagnostics_of provideDiagnostics validator_text = [] ∧
  onDidSave_sample (Completed (Some validator_text)) = [] ∧
  provideDiagnostics (Some "2 errors found") (Some two_flagged_lines)
    = expected_group.
Proof. split_and!; reflexivity. Qed.

(** C2 fails as stated: the group that the handler computes for the text
    has no entry for /a/b.bean. *)
Lemma flagged_lines_not_reached :
  diagnostics_of provideDiagnostics validator_text ≠ expected_group ∧
  obj_get (diagnostics_of provideDiagnostics validator_text) "/a/b.bean" = None.
Proof. split; [discriminate | reflexivity]. Qed.

(** * Further properties of the code *)

(** ** The closure [traverse] *)

Lemma flat_map_visit (ns : list SyntaxNode) :
  flat_map visit ns = omap token_of ns.
Proof.
  induction ns as [|n ns IH]; [done|]. simpl. rewrite IH.
  rewrite visit_rule_table. unfold token_of.
  by destruct (rule_table (type n)).
Qed.

Lemma traverse_omap (root : SyntaxNode) :
  traverse root = omap token_of (preorder root).
Proof. rewrite traverse_preorder. apply flat_map_visit. Qed.

Lemma omap_length_le {A B} (f : A → option B) (l : list A) :
  (List.length (omap f l) ≤ List.length l)%nat.
Proof.
  induction l as [|x l IH]; csimpl; [lia|]. destruct (f x); csimpl; lia.
Qed.

(** X1.  Run on a tree, the closure pushes one token for each node of a
    classified kind and none for the others, in the order in which the
    cursor reaches the nodes: the node itself before its children, the
    children from left to right. *)
Theorem traverse_exact (root : SyntaxNode) :
  traverse root = omap token_of (preorder root) ∧
  (List.length (traverse root) ≤ List.length (preorder root))%nat.
Proof.
  split; [apply traverse_omap|].
  rewrite traverse_omap. apply omap_length_le.
Qed.

(** X2.  A token of the traversal has one of the seven categories
    comment, string, number, type, property, label, constant: its value
    names a member of the server's enumeration below the bound, and is
    never keyword or parameter.  Its length is not negative. *)
Theorem traverse_categories (root : SyntaxNode) (c : PushCall) :
  c ∈ traverse root →
  p_tokenType c ∈ [TokenTypes.comment; TokenTypes.string; TokenTypes.number;
                   TokenTypes.type; TokenTypes.property; TokenTypes.label;
                   TokenTypes.constant] ∧
  is_Some (TokenTypes.name (p_tokenType c)) ∧
  0 <= p_tokenType c < TokenTypes.sentinel ∧
  0 <= p_length c.
Proof.
  intros (n & _ & (category & Hcat & ->)%elem_of_visit)%elem_of_traverse.
  destruct (server_types_lookup _ _ Hcat) as [_ Hname].
  destruct (rule_table_range _ _ Hcat) as [Hrange _].
  cbn [push_node p_tokenType p_length].
  split_and!; [|done|lia|unfold TokenTypes.sentinel; lia|lia].
  revert Hcat. unfold rule_table.
  repeat (destruct (String.eqb (type n) _);
          [intros [= <-]; rewrite !elem_of_cons; tauto|]).
  done.
Qed.

Lemma traverse_categories_witness :
  push_node (rootNode date_tree) TokenTypes.number TokenModifiers.abstract
    ∈ traverse (rootNode date_tree) ∧
  is_Some (TokenTypes.name
             (p_tokenType (push_node (rootNode date_tree) TokenTypes.number
                             TokenModifiers.abstract))).
Proof.
  assert (H : push_node (rootNode date_tree) TokenTypes.number
                TokenModifiers.abstract ∈ traverse (rootNode date_tree))
    by (simpl; left).
  split; [exact H|].
  exact (proj1 (proj2 (traverse_categories (rootNode date_tree) _ H))).
Defined.

(** ** More on the legend *)

Lemma filter_ext_in {A} (P Q : A → Prop) `{!∀ x, Decision (P x)}
    `{!∀ x, Decision (Q x)} (l : list A) :
  (∀ x, x ∈ l → (P x ↔ Q x)) → filter P l = filter Q l.
Proof.
  induction l as [|x l IH]; intros Hext; [done|].
  rewrite !filter_cons.
  rewrite IH by (intros y Hy; apply Hext; by right).
  destruct (decide (P x)) as [HP|HP], (decide (Q x)) as [HQ|HQ]; try done.
  - destruct HQ. by apply (Hext x); [left|].
  - destruct HP. by apply (Hext x); [left|].
Qed.

Lemma filter_sublist_mono {A} (P Q : A → Prop) `{!∀ x, Decision (P x)}
    `{!∀ x, Decision (Q x)} (l : list A) :
  (∀ x, P x → Q x) → filter P l `sublist_of` filter Q l.
Proof.
  intros Hmono. induction l as [|x l IH]; [done|].
  rewrite !filter_cons.
  destruct (decide (P x)) as [HP|HP], (decide (Q x)) as [HQ|HQ].
  - by apply sublist_skip.
  - destruct HQ. by apply Hmono.
  - by apply sublist_cons.
  - done.
Qed.

Lemma computeLegend_filter (capability : SemanticTokensClientCapabilities) :
  computeLegend capability
  = {| tokenTypes :=
         filter (λ s, s ∈ cap_tokenTypes capability) server_token_types;
       tokenModifiers :=
         filter (λ s, s ∈ cap_tokenModifiers capability)
           server_token_modifiers |}.
Proof.
  unfold computeLegend. f_equal; apply legend_loop_of_list.
Qed.

Lemma server_names_NoDup :
  NoDup server_token_types ∧ NoDup server_token_modifiers.
Proof.
  split; refine (bool_decide_unpack _ _); vm_compute; exact I.
Qed.

(** X4.  The legend depends on which names the client declares, not on
    their order nor on how often a name is listed. *)
Theorem computeLegend_set (c1 c2 : SemanticTokensClientCapabilities) :
  (∀ s, s ∈ cap_tokenTypes c1 ↔ s ∈ cap_tokenTypes c2) →
  (∀ s, s ∈ cap_tokenModifiers c1 ↔ s ∈ cap_tokenModifiers c2) →
  computeLegend c1 = computeLegend c2.
Proof.
  intros Htypes Hmods. rewrite !computeLegend_filter.
  f_equal; by apply list_filter_iff.
Qed.

Lemma computeLegend_set_witness :
  computeLegend {| cap_tokenTypes := ["string"; "comment"; "string"];
                   cap_tokenModifiers := ["deprecated"; "abstract"] |}
  = computeLegend {| cap_tokenTypes := ["comment"; "string"];
                     cap_tokenModifiers := ["abstract"; "deprecated"] |}.
Proof.
  apply computeLegend_set; intros s; simpl;
    rewrite !elem_of_cons, !elem_of_nil; tauto.
Defined.

(** X5.  Negotiating again with the legend itself as the client's
    declaration gives the same legend. *)
Theorem computeLegend_idempotent (capability : SemanticTokensClientCapabilities) :
  computeLegend (capability_of (computeLegend capability))
  = computeLegend capability.
Proof.
  rewrite (computeLegend_filter (capability_of _)).
  rewrite (computeLegend_filter capability). simpl.
  f_equal; apply filter_ext_in; intros s Hs;
    rewrite list_elem_of_filter; tauto.
Qed.

(** X6.  A client that declares more gets a legend that extends the
    other in place: the smaller legend is the larger one with names left
    out, in the same order. *)
Theorem computeLegend_monotone (c1 c2 : SemanticTokensClientCapabilities) :
  (∀ s, s ∈ cap_tokenTypes c1 → s ∈ cap_tokenTypes c2) →
  (∀ s, s ∈ cap_tokenModifiers c1 → s ∈ cap_tokenModifiers c2) →
  tokenTypes (computeLegend c1) `sublist_of` tokenTypes (computeLegend c2) ∧
  tokenModifiers (computeLegend c1)
    `sublist_of` tokenModifiers (computeLegend c2).
Proof.
  intros Htypes Hmods. rewrite !computeLegend_filter. simpl.
  split; by apply filter_sublist_mono.
Qed.

Lemma computeLegend_monotone_witness :
  tokenTypes (computeLegend comment_only)
    `sublist_of` tokenTypes (computeLegend all_capabilities).
Proof.
  apply (computeLegend_monotone comment_only all_capabilities).
  - intros s. simpl. rewrite list_elem_of_singleton. intros ->.
    vm_compute. left.
  - intros s. simpl. by intros ?%elem_of_nil.
Defined.

(** X7.  A legend lists no name twice and has at most nine token types and
    two modifiers; it has no token type exactly when the client declares
    none of the server's. *)
Theorem computeLegend_bounds (capability : SemanticTokensClientCapabilities) :
  NoDup (tokenTypes (computeLegend capability)) ∧
  NoDup (tokenModifiers (computeLegend capability)) ∧
  (List.length (tokenTypes (computeLegend capability)) ≤ 9)%nat ∧
  (List.length (tokenModifiers (computeLegend capability)) ≤ 2)%nat ∧
  (tokenTypes (computeLegend capability) = []
   ↔ ∀ s, s ∈ server_token_types → s ∉ cap_tokenTypes capability).
Proof.
  rewrite computeLegend_filter. simpl.
  destruct server_names_NoDup as [Htypes Hmods].
  split_and!.
  - by apply NoDup_filter.
  - by apply NoDup_filter.
  - etrans; [apply sublist_length, sublist_filter|]. by vm_compute.
  - etrans; [apply sublist_length, sublist_filter|]. by vm_compute.
  - split.
    + intros Hnil s Hs Hin.
      by apply (filter_nil_not_elem_of _ _ s Hnil).
    + intros Hnone.
      destruct (filter _ server_token_types) as [|s l] eqn:Hf; [done|].
      assert (Hs : s ∈ filter (λ s, s ∈ cap_tokenTypes capability)
                     server_token_types) by (rewrite Hf; left).
      apply list_elem_of_filter in Hs as [Hin Hs].
      by destruct (Hnone s Hs).
Qed.

Lemma filter_lookup_ge {A} (P : A → Prop) `{!∀ x, Decision (P x)}
    (l : list A) (k : nat) (x : A) :
  filter P l !! k = Some x → ∃ j, (k ≤ j)%nat ∧ l !! j = Some x.
Proof.
  revert k. induction l as [|a l IH]; intros k; [done|].
  rewrite filter_cons. destruct (decide (P a)).
  - destruct k as [|k]; simpl.
    + intros [= ->]. by exists 0%nat.
    + intros (j & Hj & Hx)%IH. exists (S j). split; [lia|done].
  - intros (j & Hj & Hx)%IH. exists (S j). split; [lia|done].
Qed.

(** In a list without repetition, filtering leaves the element at index
    [i] in its place exactly when it keeps everything up to it. *)
Lemma filter_lookup_agree {A} (P : A → Prop) `{!∀ x, Decision (P x)}
    (l : list A) (i : nat) (x : A) :
  NoDup l → l !! i = Some x →
  filter P l !! i = Some x ↔ ∀ j y, (j ≤ i)%nat → l !! j = Some y → P y.
Proof.
  revert i. induction l as [|a l IH]; intros i Hnd Hi; [done|].
  apply NoDup_cons in Hnd as [Ha Hnd]. rewrite filter_cons.
  destruct (decide (P a)) as [HP|HP].
  - destruct i as [|i]; simpl in *.
    + split; [|done]. intros _ [|j] y Hj; [by intros [= <-] | lia].
    + rewrite (IH i Hnd Hi). split.
      * intros Hall [|j] y Hj; simpl; [by intros [= <-]|].
        apply Hall. lia.
      * intros Hall j y Hj Hy. apply (Hall (S j)); [lia|done].
  - split.
    + intros Hf. exfalso. destruct i as [|i]; simpl in Hi.
      * injection Hi as ->. apply Ha.
        eapply list_elem_of_filter, list_elem_of_lookup_2, Hf.
      * apply filter_lookup_ge in Hf as (j & Hj & Hx).
        pose proof (NoDup_lookup _ _ _ _ Hnd Hi Hx). lia.
    + intros Hall. destruct HP. by apply (Hall 0%nat a); [lia|].
Qed.

Lemma server_types_index (j : nat) :
  (j < 9)%nat → server_token_types !! j = TokenTypes.name (Z.of_nat j).
Proof.
  intros Hj. do 9 (destruct j as [|j]; [reflexivity|]). lia.
Qed.

(** X8.  The category value of a token of the traversal is the index of
    that category's name in the negotiated legend exactly when the client
    declares every token type of the server up to that value; a server
    type that the client lacks shifts all later names. *)
Theorem legend_index_exact (capability : SemanticTokensClientCapabilities)
    (root : SyntaxNode) (c : PushCall) :
  c ∈ traverse root →
  tokenTypes (computeLegend capability) !! Z.to_nat (p_tokenType c)
    = TokenTypes.name (p_tokenType c)
  ↔ declares_up_to capability (p_tokenType c).
Proof.
  intros (n & _ & (category & Hcat & ->)%elem_of_visit)%elem_of_traverse.
  cbn [push_node p_tokenType].
  destruct (server_types_lookup _ _ Hcat) as [Hlookup [name Hname]].
  destruct (rule_table_range _ _ Hcat) as [Hrange _].
  rewrite Hname in *. rewrite computeLegend_filter. cbn [tokenTypes].
  rewrite (filter_lookup_agree _ _ _ _ (proj1 server_names_NoDup) Hlookup).
  unfold declares_up_to. split.
  - intros H i s Hi Hs. apply (H (Z.to_nat i)); [lia|].
    rewrite server_types_index by lia. by rewrite Z2Nat.id by lia.
  - intros H j y Hj Hy. apply (H (Z.of_nat j)); [lia|].
    by rewrite <- server_types_index by lia.
Qed.

Lemma legend_index_exact_witness :
  push_node (rootNode date_tree) TokenTypes.number TokenModifiers.abstract
    ∈ traverse (rootNode date_tree) ∧
  tokenTypes
    (computeLegend {| cap_tokenTypes := ["number"; "string"; "keyword"; "comment"];
                      cap_tokenModifiers := [] |}) !! 3%nat
  = Some "number".
Proof.
  assert (H : push_node (rootNode date_tree) TokenTypes.number
                TokenModifiers.abstract ∈ traverse (rootNode date_tree))
    by (simpl; left).
  split; [exact H|].
  apply (proj2 (legend_index_exact
    {| cap_tokenTypes := ["number"; "string"; "keyword"; "comment"];
       cap_tokenModifiers := [] |} (rootNode date_tree) _ H)).
  intros i s Hi Hs. simpl in Hi.
  assert (Hcases : i = 0 ∨ i = 1 ∨ i = 2 ∨ i = 3)
    by (unfold TokenTypes.number in Hi; lia).
  destruct Hcases as [-> | [-> | [-> | ->]]]; cbn in Hs; simplify_eq; simpl;
    rewrite !elem_of_cons; tauto.
Defined.

(** ** The provider's cache of builders *)

Lemma handle_cases forest r this :
  (getByUri forest (request_uri r) = None ∧
   handle forest r this = ({| resultId := None; data := [] |}, this)) ∨
  (∃ b, is_Some (getByUri forest (request_uri r)) ∧
        handle forest r this
        = ({| resultId := Some (Builder.id b); data := _data b |},
           set_builder (request_uri r)
             {| _id := _id b; _prevLine := _prevLine b;
                _prevChar := _prevChar b; _data := _data b;
                _prevData := None |}
             (getTokenBuilder
                match r with
                | FullRequest now _ | DeltaRequest now _ _ _ => now
                end (request_uri r) this).2) ∧
        match r with
        | FullRequest now uri => b = (getTokenBuilder now uri this).1
        | DeltaRequest now now' uri prev =>
            b = Builder.previousResult now'
                  (getTokenBuilder now uri this).1 prev
        end).
Proof.
  destruct r as [now uri | now now' uri prev]; simpl;
    unfold handleSemantic, handleSemanticDelta;
    destruct (getByUri forest uri) as [tc|] eqn:Htc; try (by left);
    right; destruct (getTokenBuilder now uri this) as [b0 this0]; simpl.
  - exists b0. by split_and!.
  - exists (Builder.previousResult now' b0 prev). by split_and!.
Qed.

(** X9.  The result id that a response carries is the id that the next
    delta request on the document is compared with: after a request that
    returned an id, that id is the id of the cached builder. *)
Theorem result_id_recognised (forest : gmap string TreeContainer) (r : Request)
    (this : SemanticTokensProvider) (id : string) :
  resultId (handle forest r this).1 = Some id →
  cached_previous (handle forest r this).2 (request_uri r) id = true.
Proof.
  destruct (handle_cases forest r this) as [[_ ->]|(b & _ & -> & _)];
    [done|].
  simpl. intros [= <-]. unfold cached_previous. simpl.
  rewrite lookup_insert_eq. apply String.eqb_refl.
Qed.

Lemma result_id_recognised_witness :
  resultId (handle sample_forest (DeltaRequest 6 7 "file:///a.bean" "17")
              (new_provider None)).1 = Some "7" ∧
  cached_previous
    (handle sample_forest (DeltaRequest 6 7 "file:///a.bean" "17")
       (new_provider None)).2 "file:///a.bean" "7" = true.
Proof.
  assert (H : resultId (handle sample_forest
                (DeltaRequest 6 7 "file:///a.bean" "17")
                (new_provider None)).1 = Some "7")
    by (vm_compute; reflexivity).
  split; [exact H|].
  exact (result_id_recognised sample_forest
           (DeltaRequest 6 7 "file:///a.bean" "17") (new_provider None) "7" H).
Defined.



Lemma getTokenBuilder_frame now uri uri' this :
  uri' ≠ uri →
  tokenBuilders (getTokenBuilder now uri this).2 !! uri'
  = tokenBuilders this !! uri'.
Proof.
  intros Hne. unfold getTokenBuilder.
  destruct (tokenBuilders this !! uri); [done|]. simpl.
  by rewrite lookup_insert_ne.
Qed.

Lemma getTokenBuilder_legend now uri this :
  semanticTokensLegend (getTokenBuilder now uri this).2
  = semanticTokensLegend this.
Proof.
  unfold getTokenBuilder. by destruct (tokenBuilders this !! uri).
Qed.

Lemma getTokenBuilder_dom now uri this :
  dom (tokenBuilders this) ⊆ dom (tokenBuilders (getTokenBuilder now uri this).2).
Proof.
  unfold getTokenBuilder. destruct (tokenBuilders this !! uri); [done|].
  simpl. apply dom_insert_subseteq.
Qed.

Lemma handle_frame forest r this uri' :
  uri' ≠ request_uri r →
  tokenBuilders (handle forest r this).2 !! uri' = tokenBuilders this !! uri'.
Proof.
  intros Hne.
  destruct (handle_cases forest r this) as [[_ ->]|(b & _ & -> & _)];
    [done|].
  simpl. rewrite lookup_insert_ne by done. by apply getTokenBuilder_frame.
Qed.

Lemma handle_legend forest r this :
  semanticTokensLegend (handle forest r this).2 = semanticTokensLegend this.
Proof.
  destruct (handle_cases forest r this) as [[_ ->]|(b & _ & -> & _)];
    [done|].
  simpl. apply getTokenBuilder_legend.
Qed.

Lemma handle_dom forest r this :
  dom (tokenBuilders this) ⊆ dom (tokenBuilders (handle forest r this).2).
Proof.
  destruct (handle_cases forest r this) as [[_ ->]|(b & _ & -> & _)];
    [done|].
  simpl. etrans; [apply getTokenBuilder_dom | apply dom_insert_subseteq].
Qed.

Lemma serve_cons forest r rs this :
  serve ((forest, r) :: rs) this
  = ((handle forest r this).1 :: (serve rs (handle forest r this).2).1,
     (serve rs (handle forest r this).2).2).
Proof.
  simpl. destruct (handle forest r this) as [t this1]. simpl.
  by destruct (serve rs this1).
Qed.

(** X11.  Requests touch the builder of their own document only: over any
    sequence of requests, the builder cached for a document that none of
    them names stays what it was, and the negotiated legend is never
    changed. *)
Theorem serve_frame (rs : list (gmap string TreeContainer * Request))
    (this : SemanticTokensProvider) (uri' : string) :
  Forall (λ fr, request_uri fr.2 ≠ uri') rs →
  tokenBuilders (serve rs this).2 !! uri' = tokenBuilders this !! uri' ∧
  semanticTokensLegend (serve rs this).2 = semanticTokensLegend this.
Proof.
  revert this. induction rs as [|[forest r] rs IH]; intros this Hrs; [done|].
  apply Forall_cons in Hrs as [Hr Hrs]. simpl in Hr.
  rewrite serve_cons. simpl.
  destruct (IH (handle forest r this).2 Hrs) as [-> ->].
  split; [by apply handle_frame | apply handle_legend].
Qed.

Lemma serve_frame_witness :
  Forall (λ fr : gmap string TreeContainer * Request,
            request_uri fr.2 ≠ "file:///b.bean")
    [(sample_forest, FullRequest 5 "file:///a.bean")] ∧
  tokenBuilders
    (serve [(sample_forest, FullRequest 5 "file:///a.bean")]
       (new_provider None)).2 !! "file:///b.bean" = None.
Proof.
  assert (H : Forall (λ fr : gmap string TreeContainer * Request,
                        request_uri fr.2 ≠ "file:///b.bean")
                [(sample_forest, FullRequest 5 "file:///a.bean")])
    by (repeat constructor; simpl; discriminate).
  split; [exact H|].
  exact (proj1 (serve_frame _ (new_provider None) "file:///b.bean" H)).
Defined.

(** X12.  A builder, once cached, is never dropped: over any sequence of
    requests the documents that have a builder only grow in number, and a
    request creates a builder for its own document at most. *)
Theorem builders_never_dropped (rs : list (gmap string TreeContainer * Request))
    (this : SemanticTokensProvider) :
  dom (tokenBuilders this) ⊆ dom (tokenBuilders (serve rs this).2) ∧
  ∀ uri, uri ∈ dom (tokenBuilders (serve rs this).2) →
         uri ∈ dom (tokenBuilders this) ∨
         uri ∈ (λ fr : gmap string TreeContainer * Request,
                  request_uri fr.2) <$> rs.
Proof.
  revert this. induction rs as [|[forest r] rs IH]; intros this.
  - split; [done|]. intros uri Huri. by left.
  - rewrite serve_cons. simpl.
    destruct (IH (handle forest r this).2) as [Hsub Hnew]. split.
    + etrans; [apply handle_dom | apply Hsub].
    + intros uri [Huri|Huri]%Hnew.
      * destruct (decide (uri = request_uri r)) as [->|Hne].
        { right. left. }
        left. apply elem_of_dom. apply elem_of_dom in Huri.
        by rewrite handle_frame in Huri.
      * right. by right.
Qed.

Lemma handle_idle forest r this :
  builders_idle this → builders_idle (handle forest r this).2.
Proof.
  intros Hidle.
  destruct (handle_cases forest r this) as [[_ ->]|(b & _ & -> & Hb)];
    [done|].
  assert (Hget : ∀ now uri,
    (getTokenBuilder now uri this).1
      = Builder.new (_id (getTokenBuilder now uri this).1) ∧
    builders_idle (getTokenBuilder now uri this).2).
  { intros now uri. unfold getTokenBuilder.
    destruct (tokenBuilders this !! uri) as [b0|] eqn:Hb0; simpl.
    - split; [by eapply Hidle | done].
    - split; [done|]. intros uri' b'. simpl. rewrite lookup_insert.
      case_decide; [by intros [= <-] | apply Hidle]. }
  intros uri' b'. simpl. rewrite lookup_insert. case_decide.
  - intros [= <-]. simpl.
    destruct r as [now uri | now now' uri prev]; simpl in *; subst b.
    + destruct (Hget now uri) as [Hnew _]. by rewrite Hnew.
    + done.
  - destruct r as [now uri | now now' uri prev]; apply (Hget now uri).
Qed.

(** X13.  Whatever requests a new provider has served, every builder it
    has cached is as [new SemanticTokensBuilder()] leaves one, up to its
    id: no data, no previous data, previous position (0, 0). *)
Theorem cached_builders_idle
    (capabilities : option SemanticTokensClientCapabilities)
    (rs : list (gmap string TreeContainer * Request)) :
  builders_idle (serve rs (new_provider capabilities)).2.
Proof.
  assert (H : ∀ this, builders_idle this → builders_idle (serve rs this).2).
  { induction rs as [|[forest r] rs IH]; intros this Hthis; [done|].
    rewrite serve_cons. simpl. by apply IH, handle_idle. }
  apply H. intros uri b. simpl. by rewrite lookup_empty.
Qed.

(** ** The two revisions *)

Lemma Rev0_handle_eq documentEvents forest r this :
  same_documents documentEvents forest →
  Rev0.handle documentEvents r this = handle forest r this.
Proof.
  intros Hsame.
  destruct r as [now uri | now now' uri prev]; simpl;
    unfold Rev0.handleSemantic, Rev0.handleSemanticDelta, handleSemantic,
      handleSemanticDelta, Rev0.get, getByUri;
    specialize (Hsame uri);
    destruct (documentEvents !! uri) as [document|].
  - destruct Hsame as [Huri [tc ->]].
    unfold Rev0.getTokenBuilder, getTokenBuilder. by rewrite Huri.
  - by rewrite Hsame.
  - destruct Hsame as [Huri [tc ->]].
    unfold Rev0.getTokenBuilder, getTokenBuilder. by rewrite Huri.
  - by rewrite Hsame.
Qed.

(** X14.  The two revisions of the provider answer alike: when at every
    request the open documents and the forest know the same uris, each
    document under its own, the earlier revision gives the same responses
    and ends in the same state as the later one. *)
Theorem revisions_agree
    (rs : list (gmap string TextDocument * gmap string TreeContainer * Request))
    (this : SemanticTokensProvider) :
  Forall (λ x, same_documents x.1.1 x.1.2) rs →
  Rev0.serve ((λ x, (x.1.1, x.2)) <$> rs) this
  = serve ((λ x, (x.1.2, x.2)) <$> rs) this.
Proof.
  revert this. induction rs as [|[[documentEvents forest] r] rs IH];
    intros this Hrs; [done|].
  apply Forall_cons in Hrs as [Hr Hrs]. simpl in Hr. simpl.
  rewrite (Rev0_handle_eq _ forest _ _ Hr).
  destruct (handle forest r this) as [t this1]. by rewrite IH.
Qed.

Lemma revisions_agree_witness :
  Forall (λ x : gmap string TextDocument * gmap string TreeContainer * Request,
            same_documents x.1.1 x.1.2)
    [(sample_documents, sample_forest, FullRequest 5 "file:///a.bean")] ∧
  Rev0.serve [(sample_documents, FullRequest 5 "file:///a.bean")]
    (new_provider None)
  = serve [(sample_forest, FullRequest 5 "file:///a.bean")] (new_provider None).
Proof.
  assert (H : Forall
    (λ x : gmap string TextDocument * gmap string TreeContainer * Request,
       same_documents x.1.1 x.1.2)
    [(sample_documents, sample_forest, FullRequest 5 "file:///a.bean")]).
  { repeat constructor. simpl. intros uri.
    unfold sample_documents, sample_forest.
    destruct (decide (uri = "file:///a.bean")) as [->|Hne].
    - rewrite !lookup_singleton_eq. simpl. split; [done | by eexists].
    - by rewrite !lookup_singleton_ne. }
  split; [exact H|].
  exact (revisions_agree _ (new_provider None) H).
Defined.

(** ** The root file of the server *)

Lemma append_length (a b : string) :
  String.length (a +:+ b) = (String.length a + String.length b)%nat.
Proof. induction a as [|c a IH]; simpl; [done | by rewrite IH]. Qed.

Lemma append_one (a r : string) (c : ascii) :
  a +:+ r = String c r → a = String c "".
Proof.
  intros H. pose proof (f_equal String.length H) as Hlen.
  rewrite append_length in Hlen. simpl in Hlen.
  destruct a as [|c' [|c'' a]]; simpl in *; [lia| |lia].
  by injection H as ->.
Qed.

Lemma replace_first_absent (replacement s : string) (pattern : ascii) :
  contains pattern s = false → replace_first pattern replacement s = s.
Proof.
  induction s as [|c s IH]; simpl; [done|].
  destruct (Ascii.eqb c pattern); simpl; [done|].
  intros H. by rewrite IH.
Qed.

(** X15.  Of the tildes in the configured root file, the constructor
    replaces the first one alone, wherever in the path it stands; what
    follows it, further tildes included, is kept as it is, and a path
    without a tilde is kept whole. *)
Theorem replace_first_occurrence (homedir before after : string) :
  contains tilde before = false →
  replace_first tilde homedir (before +:+ String tilde after)
    = before +:+ homedir +:+ after ∧
  replace_first tilde homedir before = before.
Proof.
  intros Hbefore. split; [|by apply replace_first_absent].
  induction before as [|c before IH]; simpl in *; [done|].
  destruct (Ascii.eqb c tilde); simpl in *; [done|].
  by rewrite IH.
Qed.

Lemma replace_first_occurrence_witness :
  contains tilde "/data/" = false ∧
  replace_first tilde "/home/u" "/data/~/x~y.bean" = "/data//home/u/x~y.bean".
Proof.
  assert (H : contains tilde "/data/" = false) by reflexivity.
  split; [exact H|].
  exact (proj1 (replace_first_occurrence "/home/u" "/data/" "/x~y.bean" H)).
Defined.

Lemma replace_first_fixed (homedir s : string) :
  replace_first tilde homedir s = s
  ↔ contains tilde s = false ∨ homedir = String tilde "".
Proof.
  induction s as [|c s IH]; simpl.
  - split; [by left | done].
  - destruct (Ascii.eqb_spec c tilde) as [->|Hc]; simpl.
    + split.
      * intros H%append_one. by right.
      * intros [?| ->]; done.
    + rewrite <- IH. split; [by intros [= ?] | by intros ->].
Qed.

(** X16.  [initialize] gives a server exactly when the parser can be
    initialised, the initialization options are an object whose
    [rootBeancountFile] is a string, and the analyzer can be created from
    that string as it is configured.  The server then keeps the path with
    its first tilde replaced by the home directory; so the path that the
    analyzer was created from and the path of the server are the same
    exactly when the configured path has no tilde (or the home directory
    is itself [~]). *)
Theorem initialize_roots (Parser Analyzer : Type)
    (initializeParser : option Parser)
    (fromBeancountFile : JsValue → Parser → option Analyzer)
    (homedir : string) (params : InitializeParams)
    (server : BeancountServer Analyzer) :
  initialize Parser Analyzer initializeParser fromBeancountFile homedir params
    = Initialized server
  ↔ ∃ parser opts root,
      initializeParser = Some parser ∧
      initializationOptions params = OptionsObject opts ∧
      opts !! "rootBeancountFile" = Some (JsString root) ∧
      fromBeancountFile (JsString root) parser = Some (analyzer server) ∧
      rootBeancountFile server = replace_first tilde homedir root ∧
      (rootBeancountFile server = root
       ↔ contains tilde root = false ∨ homedir = String tilde "").
Proof.
  unfold initialize, new_server. split.
  - destruct initializeParser as [parser|]; [|done].
    destruct (initializationOptions params) as [| |opts]; [done|done|].
    destruct (opts !! "rootBeancountFile") as [[root|z|b| |]|] eqn:Hroot;
      try done;
      destruct (fromBeancountFile _ parser) as [a|] eqn:Ha; try done.
    intros [= <-]. exists parser, opts, root. simpl.
    split_and!; try done. apply replace_first_fixed.
  - intros (parser & opts & root & -> & -> & -> & -> & Hroot & _).
    destruct server as [r a]. simpl in *. by subst r.
Qed.

Lemma initialize_roots_witness :
  initialize unit string (Some tt)
    (λ root _, match root with JsString s => Some s | _ => None end) "/home/u"
    {| initializationOptions :=
         OptionsObject {[ "rootBeancountFile" := JsString "~/ledger/main.bean" ]} |}
  = Initialized {| rootBeancountFile := "/home/u/ledger/main.bean";
                   analyzer := "~/ledger/main.bean" |}.
Proof.
  apply (proj2 (initialize_roots unit string (Some tt)
    (λ root _, match root with JsString s => Some s | _ => None end) "/home/u"
    {| initializationOptions :=
         OptionsObject {[ "rootBeancountFile" := JsString "~/ledger/main.bean" ]} |}
    {| rootBeancountFile := "/home/u/ledger/main.bean";
       analyzer := "~/ledger/main.bean" |})).
  exists tt, {[ "rootBeancountFile" := JsString "~/ledger/main.bean" ]},
    "~/ledger/main.bean".
  split; [reflexivity|]. split; [reflexivity|].
  split; [vm_compute; reflexivity|].
  split; [reflexivity|]. split; [reflexivity|].
  split; [discriminate | intros [H|H]; discriminate H].
Defined.

(** ** Formatting *)

Lemma translate_lookup (o : FormattingOptions) (k : string) :
  further (translate o) !! k =
  if decide (k = "convertTabsToSpaces") then
    Some (default (VBool (insertSpaces o)) (further o !! k))
  else if decide (k = "indentSize") then
    Some (default (VInt (tabSize o)) (further o !! k))
  else further o !! k.
Proof.
  destruct o as [ts ins fu]. unfold translate; simpl.
  destruct (fu !! "convertTabsToSpaces") as [v1|] eqn:H1; simpl;
    rewrite ?lookup_insert_ne by done;
    destruct (fu !! "indentSize") as [v2|] eqn:H2; simpl;
    rewrite ?lookup_insert; repeat case_decide; subst;
    rewrite ?H1, ?H2; simpl; congruence.
Qed.

Lemma translate_required (o : FormattingOptions) :
  tabSize (translate o) = tabSize o ∧ insertSpaces (translate o) = insertSpaces o.
Proof.
  destruct o as [ts ins fu]. unfold translate; simpl.
  destruct (fu !! "convertTabsToSpaces"); simpl;
    rewrite ?lookup_insert_ne by done; by destruct (fu !! "indentSize").
Qed.

Lemma FormattingOptions_eq (o1 o2 : FormattingOptions) :
  tabSize o1 = tabSize o2 → insertSpaces o1 = insertSpaces o2 →
  further o1 = further o2 → o1 = o2.
Proof. destruct o1, o2; simpl; by intros -> -> ->. Qed.

Lemma translate_twice (o : FormattingOptions) :
  translate (translate o) = translate o.
Proof.
  destruct (translate_required o) as [Hts Hins].
  destruct (translate_required (translate o)) as [Hts' Hins'].
  apply FormattingOptions_eq; [congruence | congruence |].
  apply map_eq. intros k. rewrite (translate_lookup (translate o)).
  rewrite (translate_lookup o). by repeat case_decide.
Qed.

(** X17.  The formatting handler returns no edit, whatever the request.
    For an open document it completes the request's own options: the
    keys [convertTabsToSpaces] and [indentSize], where absent, get the
    values of [insertSpaces] and [tabSize]; every option already present
    keeps its value.  For a document that is not open it leaves the
    options alone. *)
Theorem formatting_completes_options (documents : gmap string TextDocument)
    (params : DocumentFormattingParams) :
  (onDocumentFormatting documents params).1 = [] ∧
  formatting_uri (onDocumentFormatting documents params).2
    = formatting_uri params ∧
  (documents !! formatting_uri params = None →
   (onDocumentFormatting documents params).2 = params) ∧
  (is_Some (documents !! formatting_uri params) →
   tabSize (options (onDocumentFormatting documents params).2)
     = tabSize (options params) ∧
   insertSpaces (options (onDocumentFormatting documents params).2)
     = insertSpaces (options params) ∧
   (∀ k v, further (options params) !! k = Some v →
      further (options (onDocumentFormatting documents params).2) !! k
        = Some v) ∧
   further (options (onDocumentFormatting documents params).2)
     !! "convertTabsToSpaces"
     = Some (default (VBool (insertSpaces (options params)))
               (further (options params) !! "convertTabsToSpaces")) ∧
   further (options (onDocumentFormatting documents params).2) !! "indentSize"
     = Some (default (VInt (tabSize (options params)))
               (further (options params) !! "indentSize")) ∧
   (∀ k, k ≠ "convertTabsToSpaces" → k ≠ "indentSize" →
      further (options (onDocumentFormatting documents params).2) !! k
        = further (options params) !! k)).
Proof.
  unfold onDocumentFormatting.
  destruct (documents !! formatting_uri params) as [file|]; simpl.
  - split_and!; [done|done|done|]. intros _.
    destruct (translate_required (options params)) as [Hts Hins].
    split_and!; [done|done| | | |].
    + intros k v Hk. rewrite translate_lookup, Hk.
      by repeat case_decide.
    + by rewrite translate_lookup.
    + by rewrite translate_lookup.
    + intros k Hk1 Hk2. rewrite translate_lookup.
      by repeat case_decide.
  - split_and!; [done|done|done|]. by intros [? ?].
Qed.

Lemma formatting_completes_options_witness :
  is_Some (sample_documents !! "file:///a.bean") ∧
  further (options (onDocumentFormatting sample_documents
                      {| formatting_uri := "file:///a.bean";
                         options := sample_options |}).2)
    !! "convertTabsToSpaces" = Some (VBool true) ∧
  further (options (onDocumentFormatting sample_documents
                      {| formatting_uri := "file:///a.bean";
                         options := sample_options |}).2)
    !! "indentSize" = Some (VInt 2).
Proof.
  assert (H : is_Some (sample_documents !! "file:///a.bean"))
    by (vm_compute; eexists; reflexivity).
  split; [exact H|].
  destruct (proj2 (proj2 (proj2 (formatting_completes_options sample_documents
    {| formatting_uri := "file:///a.bean"; options := sample_options |}))) H)
    as (_ & _ & _ & Hc & Hi & _).
  split; [exact Hc | exact Hi].
Defined.

(** X18.  Completing the options twice is completing them once: a second
    formatting request with the parameters that the first one left gives
    the same answer and changes nothing more. *)
Theorem formatting_idempotent (documents : gmap string TextDocument)
    (params : DocumentFormattingParams) :
  translate (translate (options params)) = translate (options params) ∧
  onDocumentFormatting documents (onDocumentFormatting documents params).2
  = onDocumentFormatting documents params.
Proof.
  split; [apply translate_twice|].
  unfold onDocumentFormatting.
  destruct (documents !! formatting_uri params) as [file|] eqn:Hfile; simpl.
  - by rewrite Hfile, translate_twice.
  - by rewrite Hfile.
Qed.

(** ** The sections of the validator's output *)

Lemma split_on_nonempty (sep : ascii) (s : string) :
  ∃ h t, split_on sep s = h :: t.
Proof.
  induction s as [|c s (h & t & IH)]; simpl; [by eexists _, _|].
  destruct (Ascii.eqb c sep); [by eexists _, _|].
  rewrite IH. by eexists _, _.
Qed.

Lemma split_on_one_line (a : string) :
  one_line a = true → split_on newline a = [a].
Proof.
  induction a as [|c a IH]; simpl; [done|].
  destruct (Ascii.eqb c newline); simpl; [done|].
  intros H. by rewrite IH.
Qed.

Lemma split_on_line (a b : string) :
  one_line a = true →
  split_on newline (a +:+ String newline b) = a :: split_on newline b.
Proof.
  induction a as [|c a IH]; simpl.
  - done.
  - destruct (Ascii.eqb c newline); simpl; [done|].
    intros H. by rewrite IH.
Qed.

Lemma first_line (s : string) :
  one_line s = false →
  ∃ a b, s = a +:+ String newline b ∧ one_line a = true.
Proof.
  induction s as [|c s IH]; simpl; [done|].
  destruct (Ascii.eqb_spec c newline) as [->|Hc]; simpl.
  - intros _. by exists "", s.
  - intros (a & b & -> & Ha)%IH. exists (String c a), b. simpl.
    split; [done|]. destruct (Ascii.eqb_spec c newline); done.
Qed.

Lemma on_output_text path_relative path_dirname path_basename path_sep
    provide root (text : string) :
  text ≠ "" →
  on_output path_relative path_dirname path_basename path_sep provide root
    (Some text)
  = publish path_relative path_dirname path_basename path_sep root
      (diagnostics_of provide text).
Proof. by destruct text. Qed.

(** X19.  The error section that the handler cuts from the output text is
    always defined; the flagged section is [undefined] exactly when the
    text has no line break, and then the error section is the whole
    text. *)
Theorem sections_edges (text : string) :
  is_Some (sections text).1 ∧
  ((sections text).2 = None ↔ one_line text = true) ∧
  (one_line text = true → sections text = (Some text, None)).
Proof.
  unfold sections, js_split. split_and!.
  - destruct (split_on_nonempty newline text) as (h & t & ->). by eexists.
  - split.
    + intros Hnone. destruct (one_line text) eqn:Hline; [done|].
      apply first_line in Hline as (a & b & -> & Ha).
      rewrite split_on_line in Hnone by done.
      by destruct (split_on_nonempty newline b) as (h & t & Hb);
        rewrite Hb in Hnone.
    + intros Hline. by rewrite split_on_one_line.
  - intros Hline. by rewrite split_on_one_line.
Qed.

(** X20.  Of an output text with two line breaks or more, the handler
    uses the first line as the error section and the second as the
    flagged section, and nothing else: what follows the second line break
    has no influence on what is published. *)
Theorem output_after_second_line_ignored
    (path_relative : string → string → string)
    (path_dirname path_basename : string → string) (path_sep : string)
    (provide : option string → option string → JsObject (list Diagnostic))
    (root errors flagged rest rest' : string) :
  one_line errors = true →
  one_line flagged = true →
  sections (errors +:+ String newline (flagged +:+ String newline rest))
    = (Some errors, Some flagged) ∧
  on_output path_relative path_dirname path_basename path_sep provide root
    (Some (errors +:+ String newline (flagged +:+ String newline rest)))
  = publish path_relative path_dirname path_basename path_sep root
      (provide (Some errors) (Some flagged)) ∧
  on_output path_relative path_dirname path_basename path_sep provide root
    (Some (errors +:+ String newline (flagged +:+ String newline rest)))
  = on_output path_relative path_dirname path_basename path_sep provide root
      (Some (errors +:+ String newline (flagged +:+ String newline rest'))).
Proof.
  intros He Hf.
  assert (Hs : ∀ r,
    sections (errors +:+ String newline (flagged +:+ String newline r))
    = (Some errors, Some flagged)).
  { intros r. unfold sections, js_split.
    by rewrite !split_on_line by done. }
  assert (Ho : ∀ r,
    on_output path_relative path_dirname path_basename path_sep provide root
      (Some (errors +:+ String newline (flagged +:+ String newline r)))
    = publish path_relative path_dirname path_basename path_sep root
        (provide (Some errors) (Some flagged))).
  { intros r. rewrite on_output_text by (by destruct errors).
    unfold diagnostics_of. by rewrite Hs. }
  split_and!; [apply Hs | apply Ho | by rewrite !Ho].
Qed.

(** ** What a publish leaves alone *)

Lemma apply_effects_other (es : list Effect)
    (published : gmap string (list Diagnostic)) (u : string) :
  Forall (λ e, effect_uri e ≠ Some u) es →
  apply_effects published es !! u = published !! u.
Proof.
  revert published. induction es as [|e es IH]; intros published Hes; [done|].
  apply Forall_cons in Hes as [He Hes].
  change (apply_effects published (e :: es))
    with (apply_effects (apply_effect published e) es).
  rewrite IH by done.
  destruct e as [uri ds|str]; simpl; [|done].
  apply lookup_insert_ne. intros ->. by apply He.
Qed.

(** X21.  A publish names the documents of the group's files and no
    other: for a uri that is not the uri of any file key, no call is made
    and the diagnostics that the editor holds for it stay, also when they
    come from an earlier run. *)
Theorem stale_diagnostics_kept
    (path_relative : string → string → string)
    (path_dirname path_basename : string → string) (path_sep : string)
    (root : string) (diagnostics : JsObject (list Diagnostic))
    (published : gmap string (list Diagnostic)) (u : string) :
  (∀ file, file ∈ Object_keys diagnostics →
     document_uri path_relative path_dirname path_basename path_sep root file
       ≠ u) →
  Forall (λ e, effect_uri e ≠ Some u)
    (publish path_relative path_dirname path_basename path_sep root diagnostics) ∧
  apply_effects published
    (publish path_relative path_dirname path_basename path_sep root diagnostics)
    !! u
  = published !! u.
Proof.
  intros Hu.
  assert (H : Forall (λ e, effect_uri e ≠ Some u)
    (publish path_relative path_dirname path_basename path_sep root
       diagnostics)).
  { unfold publish. apply Forall_forall. intros e.
    rewrite list_elem_of_In, in_map_iff.
    intros (file & <- & Hfile%list_elem_of_In).
    simpl. intros [= Heq]. by apply (Hu file). }
  split; [exact H | by apply apply_effects_other].
Qed.

Lemma apply_effects_last {K} (f : K → string)
    (g : K → option (list Diagnostic)) (ks : list K) (k0 : K)
    (published : gmap string (list Diagnostic)) :
  NoDup ks → k0 ∈ ks →
  (∀ k1 k2, k1 ∈ ks → k2 ∈ ks → f k1 = f k2 → k1 = k2) →
  apply_effects published (List.map (λ k, SendDiagnostics (f k) (g k)) ks)
    !! f k0
  = Some (default [] (g k0)).
Proof.
  revert published. induction ks as [|k ks IH]; intros published Hnd Hk0 Hinj.
  - by apply elem_of_nil in Hk0.
  - apply NoDup_cons in Hnd as [Hk Hnd].
    change (apply_effects published
              (List.map (λ k, SendDiagnostics (f k) (g k)) (k :: ks)))
      with (apply_effects (<[f k := default [] (g k)]> published)
              (List.map (λ k, SendDiagnostics (f k) (g k)) ks)).
    apply elem_of_cons in Hk0 as [->|Hk0].
    + rewrite apply_effects_other; [apply lookup_insert_eq|].
      apply Forall_forall. intros e.
      rewrite list_elem_of_In, in_map_iff.
      intros (k' & <- & Hk'%list_elem_of_In). simpl. intros [= Heq].
      apply Hk. rewrite <- (Hinj k' k); [done | by right | by left | done].
    + apply IH; [done | done |].
      intros k1 k2 H1 H2. apply Hinj; by right.
Qed.

(** X22.  When different files of the group have different uris, the
    editor ends up, for each file of the group, with exactly the list
    stored under that file: the list replaces what was published for the
    document before and does not depend on it. *)
Theorem publish_replaces
    (path_relative : string → string → string)
    (path_dirname path_basename : string → string) (path_sep : string)
    (root : string) (diagnostics : JsObject (list Diagnostic))
    (published : gmap string (list Diagnostic)) (file : string)
    (ds : list Diagnostic) :
  (∀ f1 f2, f1 ∈ Object_keys diagnostics → f2 ∈ Object_keys diagnostics →
     document_uri path_relative path_dirname path_basename path_sep root f1
     = document_uri path_relative path_dirname path_basename path_sep root f2 →
     f1 = f2) →
  obj_get diagnostics file = Some ds →
  apply_effects published
    (publish path_relative path_dirname path_basename path_sep root diagnostics)
    !! document_uri path_relative path_dirname path_basename path_sep root file
  = Some ds.
Proof.
  intros Hinj Hfile. unfold publish.
  rewrite (apply_effects_last
    (document_uri path_relative path_dirname path_basename path_sep root)
    (obj_get diagnostics)).
  - by rewrite Hfile.
  - apply NoDup_Object_keys.
  - apply elem_of_Object_keys. by eexists.
  - exact Hinj.
Qed.

Lemma publish_replaces_witness :
  obj_get sample_group "/a/sub/c.bean"
    = Some [diag 12 SeverityWarning "Missing account"] ∧
  apply_effects {[ "file://sub/c.bean" := [diag 3 SeverityError "old"] ]}
    (publish PosixPath.relative PosixPath.dirname PosixPath.basename
       PosixPath.sep sample_root sample_group)
    !! "file://sub/c.bean"
  = Some [diag 12 SeverityWarning "Missing account"].
Proof.
  assert (H : obj_get sample_group "/a/sub/c.bean"
              = Some [diag 12 SeverityWarning "Missing account"])
    by reflexivity.
  split; [exact H|].
  refine (publish_replaces PosixPath.relative PosixPath.dirname
            PosixPath.basename PosixPath.sep sample_root sample_group _
            "/a/sub/c.bean" _ _ H).
  intros f1 f2 H1 H2.
  change (Object_keys sample_group) with ["/a/b.bean"; "/a/sub/c.bean"] in *.
  rewrite !elem_of_cons, !elem_of_nil in H1, H2.
  destruct H1 as [->|[->|[]]], H2 as [->|[->|[]]];
    vm_compute; congruence.
Defined.

Lemma stale_diagnostics_kept_witness :
  apply_effects {[ "file:///old.bean" := [diag 3 SeverityError "old"] ]}
    (publish PosixPath.relative PosixPath.dirname PosixPath.basename
       PosixPath.sep sample_root sample_group)
    !! "file:///old.bean"
  = Some [diag 3 SeverityError "old"].
Proof.
  refine (eq_trans (proj2 (stale_diagnostics_kept PosixPath.relative
    PosixPath.dirname PosixPath.basename PosixPath.sep sample_root
    sample_group _ "file:///old.bean" _)) _).
  - intros file.
    change (Object_keys sample_group) with ["/a/b.bean"; "/a/sub/c.bean"].
    rewrite !elem_of_cons, elem_of_nil.
    intros [->|[->|[]]]; vm_compute; discriminate.
  - vm_compute. reflexivity.
Defined.

Lemma output_after_second_line_ignored_witness :
  one_line "2 errors found" = true ∧ one_line "" = true ∧
  sections validator_text = (Some "2 errors found", Some "").
Proof.
  assert (H1 : one_line "2 errors found" = true) by reflexivity.
  assert (H2 : one_line "" = true) by reflexivity.
  split; [exact H1|]. split; [exact H2|].
  exact (proj1 (output_after_second_line_ignored PosixPath.relative
    PosixPath.dirname PosixPath.basename PosixPath.sep provideDiagnostics
    sample_root "2 errors found" ""
    ("/a/b.bean:10: Unbalanced entry" +:+ String newline
       ("/a/b.bean:12: Missing account" +:+ String newline "")) "" H1 H2)).
Defined.

(** ** Order of the closure's tokens *)


